(** * Password strength checker: a shallow embedding of
    [password_strength_checker.py] and the properties of its report.

    Conventions of the embedding.
    - A Python [str] is the list of its Unicode code points ([N]).
    - A Python [float] is a real number: arithmetic is exact, and the one
      float operation that can fail, [2 ** entropy], fails when the exact
      value leaves the range of an IEEE double. The overflow test agrees
      with the program's; the cracking-time texts are those of the exact
      power, and the program's can differ from them where its float result
      falls on the other side of a whole number. No property below reads
      those texts.
    - Python's Unicode tables ([str.lower], the decimal digits behind [\d]
      and [int], [str.isalpha], [str.isdigit]) are an interface, [Unicode],
      fixed on the ASCII range where the interpreter is fixed.
    - An exception is a value of [exn]; a call that may raise returns
      [result]. The clock read by [datetime.now()] is an argument. *)

From Stdlib Require Import Reals Lra Lia ZArith NArith List String Ascii.
From Stdlib Require Import FunctionalExtensionality.
From stdpp Require Import gmap strings list pretty.
Import ListNotations.

Local Open Scope N_scope.

(** ** Strings *)

Definition codepoint := N.
Definition str := list codepoint.

Definition of_string (s : string) : str :=
  map N_of_ascii (list_ascii_of_string s).

Definition in_range (lo hi c : codepoint) : bool := (lo <=? c) && (c <=? hi).

Definition is_ascii (c : codepoint) : bool := c <=? 127.
Definition is_az (c : codepoint) : bool := in_range 97 122 c.
Definition is_AZ (c : codepoint) : bool := in_range 65 90 c.
Definition is_09 (c : codepoint) : bool := in_range 48 57 c.

Definition ascii_lower (c : codepoint) : codepoint :=
  if is_AZ c then c + 32 else c.

Definition str_eqb (a b : str) : bool := bool_decide (a = b).

Fixpoint starts_with (p s : str) : bool :=
  match p, s with
  | [], _ => true
  | a :: p', b :: s' => (a =? b) && starts_with p' s'
  | _ :: _, [] => false
  end.

(** [p in s] for strings. *)
Fixpoint contains (p s : str) : bool :=
  starts_with p s ||
  match s with
  | [] => false
  | _ :: s' => contains p s'
  end.

(** [s.replace(a, b)] for one-character [a] and [b]. *)
Definition replace (a b : codepoint) (s : str) : str :=
  map (fun c => if c =? a then b else c) s.

(** [c * n] for a string [c]. *)
Fixpoint str_mul (s : str) (n : nat) : str :=
  match n with
  | O => []
  | S n' => s ++ str_mul s n'
  end.

(** ** The interpreter's Unicode tables *)

Class Unicode := {
  (** [str.lower()] *)
  uni_lower : str -> str;
  (** the decimal value of a character of category Nd: what [\d] matches
      and what [int] of the character returns *)
  uni_decimal : codepoint -> option N;
  (** [str.isalpha()] and [str.isdigit()] on one character *)
  uni_isalpha : codepoint -> bool;
  uni_isdigit : codepoint -> bool;
  uni_lower_ascii : forall s,
    forallb is_ascii s = true -> uni_lower s = map ascii_lower s;
  uni_decimal_ascii : forall c,
    is_ascii c = true ->
    uni_decimal c = if is_09 c then Some (c - 48) else None;
  uni_isalpha_ascii : forall c,
    is_ascii c = true -> uni_isalpha c = is_az c || is_AZ c;
  uni_isdigit_ascii : forall c,
    is_ascii c = true -> uni_isdigit c = is_09 c
}.

(** The tables restricted to Latin-1 (U+0000 to U+00FF): on strings of that
    range they are CPython's; beyond it every character is taken as
    caseless, non-alphabetic and non-numeric. *)
Module Latin1.

Definition upper_letter (c : codepoint) : bool :=
  is_AZ c || (in_range 192 222 c && negb (c =? 215)).

Definition lower (s : str) : str :=
  map (fun c => if upper_letter c then c + 32 else c) s.

Definition decimal (c : codepoint) : option N :=
  if is_09 c then Some (c - 48) else None.

Definition isalpha (c : codepoint) : bool :=
  is_az c || is_AZ c || (c =? 170) || (c =? 181) || (c =? 186) ||
  in_range 192 214 c || in_range 216 246 c || in_range 248 255 c.

Definition isdigit (c : codepoint) : bool :=
  is_09 c || (c =? 178) || (c =? 179) || (c =? 185).

End Latin1.

(** ** Regular expressions, as [re] matches them

    The fragment the program uses: one-character sets, one capturing
    group and its back-reference, concatenation, greedy counted
    repetition, and the anchors. Matching is by backtracking, leftmost
    and greedy, as in [re]; every repeated expression of the program
    consumes a character, and [rep] relies on that (a round that consumes
    nothing is not repeated). *)

Inductive regex :=
| Set_ (p : codepoint -> bool)
| Group (r : regex)
| Backref
| Cat (r1 r2 : regex)
| Rep (r : regex) (lo : nat) (hi : option nat)
| Bol
| Eol.

Record mstate := MState {
  at_start : bool;       (* is the position the start of the subject? *)
  grp : option str;      (* text of group 1, once it has matched *)
  rest : str             (* the subject from the position on *)
}.

Definition hi_open (hi : option nat) : bool :=
  match hi with
  | Some O => false
  | _ => true
  end.

(** Greedy repetition of [body], between [lo] and [hi] times: one more
    round is tried first, and the continuation only when that fails and
    [lo] rounds are done. *)
Fixpoint rep (body : mstate -> (mstate -> option mstate) -> option mstate)
    (k : mstate -> option mstate) (fuel lo : nat) (hi : option nat)
    (st : mstate) {struct fuel} : option mstate :=
  let stop := match lo with O => k st | S _ => None end in
  match fuel with
  | O => stop
  | S fuel' =>
      let more :=
        if hi_open hi then
          body st (fun st' =>
            if (length (rest st') <? length (rest st))%nat
            then rep body k fuel' (pred lo) (pred <$> hi) st'
            else None)
        else None in
      match more with
      | Some res => Some res
      | None => stop
      end
  end.

Fixpoint rmatch (r : regex) (st : mstate) (k : mstate -> option mstate)
  : option mstate :=
  match r with
  | Set_ p =>
      match rest st with
      | c :: s' => if p c then k (MState false (grp st) s') else None
      | [] => None
      end
  | Group r' =>
      rmatch r' st (fun st' =>
        k (MState (at_start st')
             (Some (take (length (rest st) - length (rest st')) (rest st)))
             (rest st')))
  | Backref =>
      match grp st with
      | Some g =>
          if starts_with g (rest st)
          then k (MState (at_start st && bool_decide (g = []))
                    (grp st) (drop (length g) (rest st)))
          else None
      | None => None
      end
  | Cat r1 r2 => rmatch r1 st (fun st' => rmatch r2 st' k)
  | Rep r' lo hi => rep (rmatch r') k (S (length (rest st))) lo hi st
  | Bol => if at_start st then k st else None
  | Eol =>
      match rest st with
      | [] | [10] => k st
      | _ => None
      end
  end.

(** One match object: the whole match ([m[0]], [m.group()]) and group 1. *)
Record rmatch_obj := MatchObj { whole : str; group1 : option str }.

Definition match_at (r : regex) (bos : bool) (s : str) : option rmatch_obj :=
  match rmatch r (MState bos None s) Some with
  | Some st' => Some (MatchObj (take (length s - length (rest st')) s) (grp st'))
  | None => None
  end.

(** [re.finditer]: the non-overlapping matches, left to right. *)
Fixpoint scan (r : regex) (fuel : nat) (bos : bool) (s : str)
  : list rmatch_obj :=
  match fuel with
  | O => []
  | S fuel' =>
      match match_at r bos s with
      | Some m =>
          m :: match whole m, s with
               | _ :: _, _ => scan r fuel' false (drop (length (whole m)) s)
               | [], _ :: s' => scan r fuel' false s'
               | [], [] => []
               end
      | None =>
          match s with
          | [] => []
          | _ :: s' => scan r fuel' false s'
          end
      end
  end.

Definition finditer (r : regex) (s : str) : list rmatch_obj :=
  scan r (S (length s)) true s.

(** [re.findall] for an expression without a group. *)
Definition findall (r : regex) (s : str) : list str :=
  map whole (finditer r s).

(** [bool(re.search(r, s))] *)
Definition search (r : regex) (s : str) : bool :=
  match finditer r s with
  | [] => false
  | _ :: _ => true
  end.

(** ** Exceptions *)

(** [UnicodeEncodeError] is kept apart from [ValueError], whose subclass
    it is in Python. *)
Inductive exn :=
| OverflowError
| ValueError (msg : str)
| UnicodeEncodeError
| OSError.

Inductive result (A : Type) :=
| Ok (a : A)
| Raise (e : exn).
Arguments Ok {A} a.
Arguments Raise {A} e.

Definition bind {A B} (m : result A) (f : A -> result B) : result B :=
  match m with
  | Ok a => f a
  | Raise e => Raise e
  end.

Notation "'let*' x ':=' m 'in' k" := (bind m (fun x => k))
  (at level 10, x name, m at level 100, k at level 200).

(** ** The analysis engine *)

Record PasswordStrengthChecker := {
  dictionary_file : option string;
  (** a set; the list gives the order in which this instance iterates it *)
  dictionary_words : list str;
  common_passwords : gset str;
  keyboard_patterns : list str
}.

Definition _load_common_passwords : gset str :=
  list_to_set (map of_string [
    "password"; "123456"; "12345678"; "123456789"; "1234567890";
    "qwerty"; "abc123"; "password1"; "welcome"; "monkey";
    "1234567"; "letmein"; "trustno1"; "dragon"; "baseball";
    "iloveyou"; "master"; "sunshine"; "ashley"; "bailey";
    "passw0rd"; "shadow"; "123123"; "654321"; "superman";
    "qazwsx"; "michael"; "football"; "welcome123"; "jesus";
    "ninja"; "mustang"; "password123"; "admin"; "login"
  ]%string).

Definition _load_keyboard_patterns : list str :=
  map of_string [
    "qwerty"; "qwertyuiop"; "asdfgh"; "asdfghjkl"; "zxcvbn";
    "123456"; "12345678"; "123456789"; "1234567890";
    "abcdef"; "abcdefgh"; "qwerty123"; "asdf123"; "zxcv123"
  ]%string.

(** The constructor, for the calls that return. [read_words path] is what
    [_load_dictionary] has read from the file at [path]: the stripped,
    lower-cased, non-blank lines as a set (in iteration order), or [None]
    when [open] raised [FileNotFoundError], which leaves the dictionary
    empty after a warning. An empty path is no path. [open] can fail in
    other ways (the path is a directory, or lies below a regular file, or
    may not be read); the constructor does not catch those errors, no
    engine is built then, and such calls are not described here. *)
Definition __init__ (dictionary_file : option string)
    (read_words : string -> option (list str)) : PasswordStrengthChecker :=
  {| dictionary_file := dictionary_file;
     dictionary_words :=
       match dictionary_file with
       | Some path =>
           if bool_decide (path = ""%string) then []
           else default [] (read_words path)
       | None => []
       end;
     common_passwords := _load_common_passwords;
     keyboard_patterns := _load_keyboard_patterns |}.

(** The engine built by [PasswordStrengthChecker()]. *)
Definition default_checker : PasswordStrengthChecker :=
  __init__ None (fun _ => None).

Module Chars.
Record t := {
  has_lowercase : bool;
  has_uppercase : bool;
  has_digits : bool;
  has_symbols : bool;
  has_unicode : bool;
  lowercase_count : nat;
  uppercase_count : nat;
  digit_count : nat;
  symbol_count : nat;
  character_set_size : nat;
  diversity_score : Z
}.
End Chars.

Module Patterns.
Record t := {
  sequential_digits : list str;
  sequential_letters : list str;
  repetitive_chars : list str;
  keyboard_patterns : list str;
  common_patterns : list str;
  date_patterns : list str
}.
End Patterns.

Module Dict.
Record t := {
  is_common_password : bool;
  contains_dictionary_word : bool;
  contains_reversed_word : bool;
  contains_substituted_word : bool;
  dictionary_words_found : list str;
  substitutions_detected : list str
}.
End Dict.

Module Crack.
Record t := {
  online_brute_force : str;
  offline_cpu : str;
  offline_gpu : str;
  cloud_cracking : str;
  (** the number the program prints with the format [.2e] *)
  combinations : R
}.
End Crack.

Module Report.
(** The sub-reports are [None] where the program stores an empty dict. *)
Record t := {
  password : str;
  length : nat;
  entropy_bits : R;
  score : R;
  category : str;
  cracking_time : option Crack.t;
  character_analysis : option Chars.t;
  patterns_detected : option Patterns.t;
  dictionary_check : option Dict.t;
  recommendations : list str;
  timestamp : str
}.
End Report.

Definition count_true (bs : list bool) : nat :=
  List.length (filter (fun b => b = true) bs).

Definition _calculate_diversity (lower upper digit symbol unicode : bool) : Z :=
  match count_true [lower; upper; digit; symbol; unicode] with
  | 0%nat => 0%Z
  | 1%nat => 20%Z
  | 2%nat => 40%Z
  | 3%nat => 60%Z
  | 4%nat => 80%Z
  | _ => 100%Z
  end.

Section Engine.

Context `{U : Unicode}.

(** *** The expressions of the program *)

Definition is_decimal (c : codepoint) : bool :=
  match uni_decimal c with
  | Some _ => true
  | None => false
  end.

Definition re_lower := Set_ is_az.                          (* [a-z] *)
Definition re_upper := Set_ is_AZ.                          (* [A-Z] *)
Definition re_digit := Set_ is_decimal.                     (* \d *)
Definition re_symbol :=                                     (* [^a-zA-Z0-9] *)
  Set_ (fun c => negb (is_az c || is_AZ c || is_09 c)).
Definition re_unicode := Set_ (fun c => negb (c <=? 127)).  (* [^\x00-\x7F] *)
Definition re_dot := Set_ (fun c => negb (c =? 10)).        (* . *)
Definition re_sep := Set_ (fun c => (c =? 47) || (c =? 45)). (* [/-] *)

Definition re_digits3 := Rep re_digit 3 None.               (* \d{3,} *)
Definition re_letters3 := Rep re_lower 3 None.              (* [a-z]{3,} *)
Definition re_repeat :=                                     (* (.)\1{2,} *)
  Cat (Group re_dot) (Rep Backref 2 None).
Definition re_year := Rep re_digit 4 (Some 4%nat).          (* \d{4} *)
Definition re_date :=                  (* \d{1,2}[/-]\d{1,2}[/-]\d{2,4} *)
  Cat (Rep re_digit 1 (Some 2%nat))
    (Cat re_sep
      (Cat (Rep re_digit 1 (Some 2%nat))
        (Cat re_sep (Rep re_digit 2 (Some 4%nat))))).
Definition re_all_same :=                                   (* ^(.)\1+$ *)
  Cat Bol (Cat (Group re_dot) (Cat (Rep Backref 1 None) Eol)).

(** *** Character composition *)

Definition _analyze_characters (password : str) : Chars.t :=
  let has_lower := search re_lower password in
  let has_upper := search re_upper password in
  let has_digit := search re_digit password in
  let has_symbol := search re_symbol password in
  let has_unicode := search re_unicode password in
  let char_set_size :=
    ((if has_lower then 26 else 0) +
     (if has_upper then 26 else 0) +
     (if has_digit then 10 else 0) +
     (if has_symbol then 33 else 0) +
     (if has_unicode then 100 else 0))%nat in
  {| Chars.has_lowercase := has_lower;
     Chars.has_uppercase := has_upper;
     Chars.has_digits := has_digit;
     Chars.has_symbols := has_symbol;
     Chars.has_unicode := has_unicode;
     Chars.lowercase_count := List.length (findall re_lower password);
     Chars.uppercase_count := List.length (findall re_upper password);
     Chars.digit_count := List.length (findall re_digit password);
     Chars.symbol_count := List.length (findall re_symbol password);
     Chars.character_set_size := char_set_size;
     Chars.diversity_score :=
       _calculate_diversity has_lower has_upper has_digit has_symbol
         has_unicode |}.

(** *** Weak patterns *)

(** [int(c)] for a one-character string. *)
Definition int_ (c : codepoint) : result Z :=
  match uni_decimal c with
  | Some v => Ok (Z.of_N v)
  | None => Raise (ValueError (of_string "invalid literal for int()"))
  end.

Definition ord (c : codepoint) : Z := Z.of_N c.

(** The loop of [_is_sequential] over digits: it stops at the first pair
    that does not step by one. *)
Fixpoint digit_steps (sequence : str) : result bool :=
  match sequence with
  | a :: (b :: _) as tl =>
      let* vb := int_ b in
      let* va := int_ a in
      if (vb - va =? 1)%Z then digit_steps tl else Ok false
  | _ => Ok true
  end.

Fixpoint letter_steps (sequence : str) : bool :=
  match sequence with
  | a :: (b :: _) as tl =>
      if (ord b - ord a =? 1)%Z then letter_steps tl else false
  | _ => true
  end.

Definition _is_sequential (sequence : str) (is_digit : bool) : result bool :=
  if (List.length sequence <? 3)%nat then Ok false
  else if is_digit then digit_steps sequence
  else Ok (letter_steps sequence).

(** [for seq in seqs: if self._is_sequential(seq, d): out.append(seq)] *)
Fixpoint keep_sequential (seqs : list str) (is_digit : bool)
  : result (list str) :=
  match seqs with
  | [] => Ok []
  | seq :: seqs' =>
      let* b := _is_sequential seq is_digit in
      let* tl := keep_sequential seqs' is_digit in
      Ok (if b then seq :: tl else tl)
  end.

Definition isdigit (s : str) : bool :=
  negb (bool_decide (s = [])) && forallb uni_isdigit s.

Definition isalpha (s : str) : bool :=
  negb (bool_decide (s = [])) && forallb uni_isalpha s.

Definition _detect_patterns (self : PasswordStrengthChecker)
    (password : str) : result Patterns.t :=
  let password_lower := uni_lower password in
  let* sequential_digits :=
    keep_sequential (findall re_digits3 password) true in
  let* sequential_letters :=
    keep_sequential (findall re_letters3 password_lower) false in
  (* [repetitive = re.findall(...)] is computed and never read. *)
  let repetitive_chars :=
    (* [match[0] * len(match.group())]: both are the whole match *)
    map (fun m => str_mul (whole m) (List.length (whole m)))
      (finditer re_repeat password) in
  let keyboard :=
    filter (fun pattern => contains pattern password_lower = true)
      (keyboard_patterns self) in
  let date_patterns :=
    findall re_year password ++ findall re_date password in
  let common_patterns :=
    (if search re_all_same password
     then [of_string "All same character"] else []) ++
    (if isdigit password then [of_string "All digits"] else []) ++
    (if isalpha password then [of_string "All letters"] else []) in
  Ok {| Patterns.sequential_digits := sequential_digits;
        Patterns.sequential_letters := sequential_letters;
        Patterns.repetitive_chars := repetitive_chars;
        Patterns.keyboard_patterns := keyboard;
        Patterns.common_patterns := common_patterns;
        Patterns.date_patterns := date_patterns |}.

End Engine.

(** ** Floats as reals *)

Local Open Scope R_scope.

Definition log2 (x : R) : R := ln x / ln 2.

(** [int(x)]: truncation towards zero. *)
Definition int_of_float (x : R) : Z :=
  if Rle_dec 0 x then Zfloor x else Zceil x.

(** [round(x)] to the nearest integer, ties to the even one. *)
Definition round_half_even (x : R) : Z :=
  let n := Zfloor x in
  let f := x - IZR n in
  if Rlt_dec f (1 / 2) then n
  else if Rlt_dec (1 / 2) f then (n + 1)%Z
  else if Z.even n then n else (n + 1)%Z.

(** [round(x, 2)] *)
Definition round2 (x : R) : R := IZR (round_half_even (x * 100)) / 100.

(** The least real that no longer rounds to a finite double:
    [DBL_MAX] plus half a unit in its last place. *)
Definition double_overflow : R := IZR (2 ^ 1024 - 2 ^ 970).

(** [2 ** e] for a float [e]: [OverflowError] when the result is out of
    range. *)
Definition pow2 (e : R) : result R :=
  if Rlt_dec (Rpower 2 e) double_overflow then Ok (Rpower 2 e)
  else Raise OverflowError.

Local Close Scope R_scope.

Definition nonempty {A} (l : list A) : bool :=
  match l with
  | [] => false
  | _ :: _ => true
  end.

Definition member (x : str) (l : list str) : bool := bool_decide (x ∈ l).

Section Scoring.

Context `{U : Unicode}.

(** *** Dictionary and common passwords *)

(** The substitution table, as [(char, sub)] in the order of the dict. *)
Definition substitutions : list (codepoint * codepoint) :=
  [(97, 64); (101, 51); (105, 49); (111, 48); (115, 36); (116, 55)].

(** One round of [for word in self.dictionary_words]. *)
Definition scan_word (password_lower : str) (acc : bool * list str)
    (word : str) : bool * list str :=
  if (4 <=? List.length word)%nat && contains word password_lower
  then (true, if member word acc.2 then acc.2 else acc.2 ++ [word])
  else acc.

Definition _check_dictionary (self : PasswordStrengthChecker)
    (password : str) : Dict.t :=
  let password_lower := uni_lower password in
  let password_reversed := rev password_lower in
  let is_common :=
    bool_decide (password_lower ∈ common_passwords self) in
  let found0 := if is_common then [password_lower] else [] in
  let words := dictionary_words self in
  let '(contains_word, reversed, found) :=
    if nonempty words then
      let direct := member password_lower words in
      let found1 := if direct then found0 ++ [password_lower] else found0 in
      let '(contains_word, found2) :=
        fold_left (scan_word password_lower) words (direct, found1) in
      let reversed := member password_reversed words in
      (contains_word, reversed,
       if reversed
       then found2 ++ [password_reversed ++ of_string " (reversed)"]
       else found2)
    else (false, false, found0) in
  let substituted_word :=
    fold_left (fun w '(char, sub) => replace sub char w)
      substitutions password_lower in
  let substituted :=
    member substituted_word words ||
    bool_decide (substituted_word ∈ common_passwords self) in
  {| Dict.is_common_password := is_common;
     Dict.contains_dictionary_word := contains_word;
     Dict.contains_reversed_word := reversed;
     Dict.contains_substituted_word := substituted;
     Dict.dictionary_words_found := found;
     Dict.substitutions_detected :=
       if substituted then [substituted_word] else [] |}.

(** *** Entropy and cracking time *)

Definition _calculate_entropy (password : str) (char_analysis : Chars.t)
  : R :=
  let length := List.length password in
  let char_set_size := Chars.character_set_size char_analysis in
  if ((char_set_size =? 0) || (length =? 0))%nat then 0%R
  else (INR length * log2 (INR char_set_size))%R.

Definition years (seconds : R) : str :=
  of_string (pretty (int_of_float (seconds / 31536000)%R)).

Definition format_time (seconds : R) : str :=
  if Rlt_dec seconds 1 then of_string "Instant"
  else if Rlt_dec seconds 60 then
    of_string (pretty (int_of_float seconds)) ++ of_string " seconds"
  else if Rlt_dec seconds 3600 then
    of_string (pretty (int_of_float (seconds / 60)%R)) ++
    of_string " minutes"
  else if Rlt_dec seconds 86400 then
    of_string (pretty (int_of_float (seconds / 3600)%R)) ++
    of_string " hours"
  else if Rlt_dec seconds 31536000 then
    of_string (pretty (int_of_float (seconds / 86400)%R)) ++
    of_string " days"
  else if Rlt_dec seconds 3153600000 then
    years seconds ++ of_string " years"
  else years seconds ++ of_string " years (centuries)".

(** The dict [_estimate_cracking_time] returns, from the number of
    combinations. *)
Definition cracking_estimates (combinations : R) : Crack.t :=
  let online_brute_force := 10%R in
  let offline_cpu := 1000000%R in
  let offline_gpu := 1000000000%R in
  let cloud_cracking := 1000000000000%R in
  {| Crack.online_brute_force :=
       format_time (combinations / online_brute_force)%R;
     Crack.offline_cpu := format_time (combinations / offline_cpu)%R;
     Crack.offline_gpu := format_time (combinations / offline_gpu)%R;
     Crack.cloud_cracking := format_time (combinations / cloud_cracking)%R;
     Crack.combinations := combinations |}.

Definition _estimate_cracking_time (entropy : R) : result Crack.t :=
  let* combinations := pow2 entropy in
  Ok (cracking_estimates combinations).

(** *** Score and category *)

Definition length_score (length : nat) : Z :=
  if (length <? 8)%nat then 0
  else if (length <? 12)%nat then 5
  else if (length <? 16)%nat then 10
  else if (length <? 20)%nat then 13
  else 15.

Definition dict_score (dictionary_check : Dict.t) : Z :=
  let s := 20%Z in
  let s := if Dict.is_common_password dictionary_check
           then (s - 15)%Z else s in
  let s := if Dict.contains_dictionary_word dictionary_check
           then (s - 10)%Z else s in
  let s := if Dict.contains_reversed_word dictionary_check
           then (s - 5)%Z else s in
  let s := if Dict.contains_substituted_word dictionary_check
           then (s - 8)%Z else s in
  Z.max 0 s.

Definition pattern_score (patterns : Patterns.t) : Z :=
  let s := 15%Z in
  let s := if nonempty (Patterns.sequential_digits patterns)
           then (s - 5)%Z else s in
  let s := if nonempty (Patterns.sequential_letters patterns)
           then (s - 5)%Z else s in
  let s := if nonempty (Patterns.repetitive_chars patterns)
           then (s - 4)%Z else s in
  let s := if nonempty (Patterns.keyboard_patterns patterns)
           then (s - 6)%Z else s in
  let s := if nonempty (Patterns.common_patterns patterns)
           then (s - 3)%Z else s in
  Z.max 0 s.

Definition _calculate_score (length : nat) (char_analysis : Chars.t)
    (patterns : Patterns.t) (dictionary_check : Dict.t) (entropy : R)
  : R :=
  let max_entropy := 128%R in
  let entropy_score := Rmin 30 (entropy / max_entropy * 30)%R in
  let diversity_score :=
    (IZR (Chars.diversity_score char_analysis) / 100 * 20)%R in
  let total_score :=
    (IZR (length_score length) + entropy_score + diversity_score +
     IZR (dict_score dictionary_check) + IZR (pattern_score patterns))%R in
  Rmin 100 (Rmax 0 total_score).

Definition _categorize_strength (score : R) : str :=
  if Rlt_dec score 30 then of_string "Very Weak"
  else if Rlt_dec score 50 then of_string "Weak"
  else if Rlt_dec score 70 then of_string "Medium"
  else if Rlt_dec score 90 then of_string "Strong"
  else of_string "Very Strong".

(** *** Recommendations *)

Definition advise (cond : bool) (message : str) : list str :=
  if cond then [message] else [].

Definition _generate_recommendations (length : nat)
    (char_analysis : Chars.t) (patterns : Patterns.t)
    (dictionary_check : Dict.t) (entropy score : R) : list str :=
  let recommendations :=
    advise (length <? 12)%nat
      (of_string "Increase password length to at least 12 characters (currently "
         ++ of_string (pretty length) ++ of_string ")") ++
    advise (negb (Chars.has_lowercase char_analysis))
      (of_string "Add lowercase letters") ++
    advise (negb (Chars.has_uppercase char_analysis))
      (of_string "Add uppercase letters") ++
    advise (negb (Chars.has_digits char_analysis))
      (of_string "Add numbers") ++
    advise (negb (Chars.has_symbols char_analysis))
      (of_string "Add special characters (!@#$%^&*)") ++
    advise (Dict.is_common_password dictionary_check)
      (of_string "Avoid using common passwords - use a unique password") ++
    advise (Dict.contains_dictionary_word dictionary_check)
      (of_string "Avoid dictionary words - use random combinations") ++
    advise (Dict.contains_substituted_word dictionary_check)
      (of_string "Simple character substitutions (like @ for a) are easily detected") ++
    advise (nonempty (Patterns.sequential_digits patterns))
      (of_string "Avoid sequential numbers (123, 1234, etc.)") ++
    advise (nonempty (Patterns.sequential_letters patterns))
      (of_string "Avoid sequential letters (abc, abcd, etc.)") ++
    advise (nonempty (Patterns.repetitive_chars patterns))
      (of_string "Avoid repetitive characters (aaa, 111, etc.)") ++
    advise (nonempty (Patterns.keyboard_patterns patterns))
      (of_string "Avoid keyboard patterns (qwerty, asdf, etc.)") ++
    advise (if Rlt_dec entropy 40 then true else false)
      (of_string "Password has low entropy - add more randomness") in
  if nonempty recommendations then recommendations
  else [of_string "Password meets most security requirements. Keep it unique and don't reuse it!"].

(** *** The report *)

Definition _empty_report (now : str) : Report.t :=
  {| Report.password := [];
     Report.length := 0;
     Report.entropy_bits := 0%R;
     Report.score := 0%R;
     Report.category := of_string "Very Weak";
     Report.cracking_time := None;
     Report.character_analysis := None;
     Report.patterns_detected := None;
     Report.dictionary_check := None;
     Report.recommendations :=
       [of_string "Please enter a password to analyze"];
     Report.timestamp := now |}.

(** [now] is the text [datetime.now().isoformat()] returns during the
    call. *)
Definition analyze (self : PasswordStrengthChecker) (now : str)
    (password : str) : result Report.t :=
  if negb (nonempty password) then Ok (_empty_report now)
  else
    let length := List.length password in
    let char_analysis := _analyze_characters password in
    let* patterns := _detect_patterns self password in
    let dictionary_check := _check_dictionary self password in
    let entropy := _calculate_entropy password char_analysis in
    let* cracking_time := _estimate_cracking_time entropy in
    let score :=
      _calculate_score length char_analysis patterns dictionary_check
        entropy in
    let category := _categorize_strength score in
    Ok {| Report.password :=
            str_mul (of_string "*") (List.length password);
          Report.length := length;
          Report.entropy_bits := round2 entropy;
          Report.score := round2 score;
          Report.category := category;
          Report.cracking_time := Some cracking_time;
          Report.character_analysis := Some char_analysis;
          Report.patterns_detected := Some patterns;
          Report.dictionary_check := Some dictionary_check;
          Report.recommendations :=
            _generate_recommendations length char_analysis patterns
              dictionary_check entropy score;
          Report.timestamp := now |}.

End Scoring.

(** ** Export *)

(** The file system: the text of each file, and the paths that
    [open(path, 'w')] refuses with an [OSError] (no such directory, a
    directory, no permission). A disk that fills up during a write is not
    modelled. *)
Record FS := {
  files : gmap string str;
  unwritable : gset string
}.

Definition io (A : Type) : Type := FS -> result A * FS.

(** What UTF-8 cannot encode: the surrogates U+D800 to U+DFFF, which a
    Python [str] may hold. *)
Definition is_surrogate (c : codepoint) : bool := in_range 55296 57343 c.

Definition encodable (text : str) : bool :=
  forallb (fun c => negb (is_surrogate c)) text.

Definition has_nul (filename : string) : bool :=
  existsb (fun a => N_of_ascii a =? 0) (list_ascii_of_string filename).

(** [open(filename, 'w', encoding='utf-8')]. A path with a NUL character
    is refused with [ValueError], the empty path and the paths of
    [unwritable] with [OSError], all before anything is touched; otherwise
    the file exists and is empty from then on. *)
Definition open_w (filename : string) : io unit :=
  fun fs =>
    if has_nul filename
    then (Raise (ValueError (of_string "embedded null byte")), fs)
    else if bool_decide (filename = ""%string) ||
            bool_decide (filename ∈ unwritable fs)
    then (Raise OSError, fs)
    else (Ok tt, {| files := <[filename := []]> (files fs);
                    unwritable := unwritable fs |}).

(** [f.write(chunk)] for each chunk in turn, after [written]: a chunk is
    encoded whole before any of it reaches the file, and the first chunk
    that cannot be encoded ends the writing with [UnicodeEncodeError]. *)
Fixpoint write_chunks (chunks : list str) (written : str)
  : result unit * str :=
  match chunks with
  | [] => (Ok tt, written)
  | chunk :: chunks' =>
      if encodable chunk then write_chunks chunks' (written ++ chunk)
      else (Raise UnicodeEncodeError, written)
  end.

(** [with open(filename, 'w', encoding='utf-8') as f:] with the writes of
    [chunks] in its body. Leaving the block, also by an exception, closes
    the file with what was written until then. *)
Definition write_file (filename : string) (chunks : list str) : io unit :=
  fun fs =>
    match open_w filename fs with
    | (Ok _, fs') =>
        let '(res, written) := write_chunks chunks [] in
        (res, {| files := <[filename := written]> (files fs');
                 unwritable := unwritable fs' |})
    | (Raise e, fs') => (Raise e, fs')
    end.

Section ExportReport.

Context `{U : Unicode}.

(** The two renderings of a report. [json_dump report] is the list of the
    chunks [json.dump(report, f, indent=2, ensure_ascii=False)] writes, one
    [f.write] each; their concatenation is the JSON text.
    [_format_text_report report] is written by a single [f.write]. The
    properties of [export_report] below are about the choice between them
    and the effect on the file system, and hold for any rendering. *)
Variable json_dump : Report.t -> list str.
Variable _format_text_report : Report.t -> str.

Definition export_report (self : PasswordStrengthChecker)
    (report : Report.t) (filename : string) (format : str) : io unit :=
  if str_eqb (uni_lower format) (of_string "json") then
    write_file filename (json_dump report)
  else if str_eqb (uni_lower format) (of_string "txt") then
    write_file filename [_format_text_report report]
  else
    fun fs =>
      (Raise (ValueError (of_string "Unsupported format: " ++ format)), fs).

End ExportReport.

(** * Properties *)

(** ** Character ranges *)

Ltac range_cases :=
  unfold Latin1.upper_letter, Latin1.isalpha, Latin1.isdigit,
    Latin1.decimal in *;
  unfold is_ascii, is_az, is_AZ, is_09 in *;
  unfold in_range in *;
  repeat match goal with
  | H : context [N.leb ?a ?b] |- _ => destruct (N.leb_spec a b)
  | H : context [N.eqb ?a ?b] |- _ => destruct (N.eqb_spec a b)
  | |- context [N.leb ?a ?b] => destruct (N.leb_spec a b)
  | |- context [N.eqb ?a ?b] => destruct (N.eqb_spec a b)
  end;
  simpl in *; try reflexivity; try discriminate; try lia.

Lemma latin1_lower_ascii (s : str) :
  forallb is_ascii s = true -> Latin1.lower s = map ascii_lower s.
Proof.
  induction s as [|c s IH]; simpl; [reflexivity|].
  intros Hs. apply andb_prop in Hs as [Hc Hs].
  unfold Latin1.lower in *. simpl. rewrite (IH Hs). f_equal.
  unfold ascii_lower. range_cases.
Qed.

Lemma latin1_decimal_ascii (c : codepoint) :
  is_ascii c = true ->
  Latin1.decimal c = if is_09 c then Some (c - 48)%N else None.
Proof. reflexivity. Qed.

Lemma latin1_isalpha_ascii (c : codepoint) :
  is_ascii c = true -> Latin1.isalpha c = is_az c || is_AZ c.
Proof.
  intros Hc. apply Bool.eq_iff_eq_true.
  unfold Latin1.isalpha, is_ascii, is_az, is_AZ, in_range in *.
  rewrite !Bool.orb_true_iff, !Bool.andb_true_iff, !N.leb_le, !N.eqb_eq.
  apply N.leb_le in Hc. lia.
Qed.

Lemma latin1_isdigit_ascii (c : codepoint) :
  is_ascii c = true -> Latin1.isdigit c = is_09 c.
Proof. intros Hc. range_cases. Qed.

Definition latin1 : Unicode := {|
  uni_lower := Latin1.lower;
  uni_decimal := Latin1.decimal;
  uni_isalpha := Latin1.isalpha;
  uni_isdigit := Latin1.isdigit;
  uni_lower_ascii := latin1_lower_ascii;
  uni_decimal_ascii := latin1_decimal_ascii;
  uni_isalpha_ascii := latin1_isalpha_ascii;
  uni_isdigit_ascii := latin1_isdigit_ascii
|}.

(** ** One-character expressions *)

Lemma match_at_set (p : codepoint -> bool) (bos : bool) (c : codepoint)
    (s : str) :
  match_at (Set_ p) bos (c :: s) =
  if p c then Some (MatchObj [c] None) else None.
Proof.
  unfold match_at. simpl. destruct (p c); [|reflexivity].
  simpl. replace (S (length s) - length s)%nat with 1%nat by lia.
  reflexivity.
Qed.

Lemma scan_set (p : codepoint -> bool) (fuel : nat) :
  forall (bos : bool) (s : str),
    (length s < fuel)%nat ->
    scan (Set_ p) fuel bos s =
    map (fun c => MatchObj [c] None) (List.filter p s).
Proof.
  induction fuel as [|fuel IH]; intros bos s Hlen; [lia|].
  destruct s as [|c s]; [reflexivity|].
  simpl in Hlen. cbn [scan]. rewrite match_at_set. simpl.
  destruct (p c); simpl; rewrite ?drop_0, IH by lia; reflexivity.
Qed.

Lemma finditer_set (p : codepoint -> bool) (s : str) :
  finditer (Set_ p) s = map (fun c => MatchObj [c] None) (List.filter p s).
Proof. apply scan_set. lia. Qed.

Lemma search_set (p : codepoint -> bool) (s : str) :
  search (Set_ p) s = existsb p s.
Proof.
  unfold search. rewrite finditer_set.
  induction s as [|c s IH]; [reflexivity|].
  simpl. destruct (p c); simpl; [reflexivity|exact IH].
Qed.

Lemma findall_set_length (p : codepoint -> bool) (s : str) :
  length (findall (Set_ p) s) = length (List.filter p s).
Proof. unfold findall. rewrite finditer_set, !length_map. reflexivity. Qed.

(** ** Counted runs of a one-character expression *)

Lemma rep_set_inv (p : codepoint -> bool) (k : mstate -> option mstate)
    (fuel : nat) :
  forall (lo : nat) (hi : option nat) (st res : mstate),
    rep (rmatch (Set_ p)) k fuel lo hi st = Some res ->
    exists (m s' : str) (b : bool),
      rest st = m ++ s' /\ forallb p m = true /\
      k (MState b (grp st) s') = Some res.
Proof.
  induction fuel as [|fuel IH]; intros lo hi [bos g s] res Hrep.
  - simpl in Hrep. destruct lo; [|discriminate].
    exists [], s, bos. auto.
  - cbn [rep] in Hrep.
    set (again := rep (rmatch (Set_ p)) k fuel) in Hrep.
    destruct (hi_open hi); cbn [rmatch rest grp] in Hrep.
    + destruct s as [|c s].
      * destruct lo; [|discriminate]. exists [], [], bos. auto.
      * destruct (p c) eqn:Hc.
        -- cbn [rest] in Hrep.
           destruct (length s <? length (c :: s))%nat.
           ++ destruct (again (pred lo) (pred <$> hi) (MState false g s))
                as [res'|] eqn:Hmore.
              ** apply IH in Hmore as (m & s' & b & Hs & Hm & Hk).
                 simpl in Hs, Hk. exists (c :: m), s', b.
                 simpl. rewrite Hc, Hm, Hs. inversion Hrep; subst. auto.
              ** destruct lo; [|discriminate]. exists [], (c :: s), bos. auto.
           ++ destruct lo; [|discriminate]. exists [], (c :: s), bos. auto.
        -- destruct lo; [|discriminate]. exists [], (c :: s), bos. auto.
    + destruct lo; [|discriminate]. exists [], s, bos. auto.
Qed.

Lemma match_at_rep_set (p : codepoint -> bool) (lo : nat) (hi : option nat)
    (bos : bool) (s : str) (m : rmatch_obj) :
  match_at (Rep (Set_ p) lo hi) bos s = Some m ->
  forallb p (whole m) = true.
Proof.
  unfold match_at. cbn [rmatch rest].
  destruct (rep _ _ _ _ _ _) as [st'|] eqn:Hrep; [|discriminate].
  apply rep_set_inv in Hrep as (w & s' & b & Hs & Hw & Hk).
  simpl in Hs, Hk. inversion Hk; subst. intros Hm. inversion Hm; subst.
  simpl. rewrite length_app.
  replace (length w + length s' - length s')%nat with (length w) by lia.
  rewrite take_app_length. exact Hw.
Qed.

Lemma scan_matches (r : regex) (fuel : nat) :
  forall (bos : bool) (s : str) (m : rmatch_obj),
    In m (scan r fuel bos s) ->
    exists bos' s', match_at r bos' s' = Some m.
Proof.
  induction fuel as [|fuel IH]; intros bos s m Hin; [destruct Hin|].
  cbn [scan] in Hin.
  destruct (match_at r bos s) as [m0|] eqn:Hm0.
  - destruct Hin as [->|Hin]; [eauto|].
    destruct (whole m0), s; try (apply IH in Hin; exact Hin).
    destruct Hin.
  - destruct s; [destruct Hin|]. apply IH in Hin. exact Hin.
Qed.

Lemma findall_rep_set (p : codepoint -> bool) (lo : nat) (hi : option nat)
    (s w : str) :
  In w (findall (Rep (Set_ p) lo hi) s) -> forallb p w = true.
Proof.
  unfold findall, finditer. intros Hin.
  apply in_map_iff in Hin as (m & <- & Hin).
  apply scan_matches in Hin as (bos & s' & Hm).
  apply match_at_rep_set in Hm. exact Hm.
Qed.

(** ** Reals: logarithms, powers and rounding *)

Section Reals.

Local Open Scope R_scope.

Lemma ln2_pos : 0 < ln 2.
Proof. rewrite <- ln_1. apply ln_increasing; lra. Qed.

Lemma log2_pos (x : R) : 1 < x -> 0 < log2 x.
Proof.
  intros Hx. unfold log2. apply Rdiv_lt_0_compat; [|apply ln2_pos].
  rewrite <- ln_1. apply ln_increasing; lra.
Qed.

(** [2 ** (n * log2 x)] is [x ** n]. *)
Lemma Rpower2_log2 (x : R) (n : nat) :
  0 < x -> Rpower 2 (INR n * log2 x) = x ^ n.
Proof.
  intros Hx. rewrite <- (Rpower_pow n x Hx). unfold Rpower, log2.
  f_equal. field. pose proof ln2_pos. lra.
Qed.

Lemma Rpower2_log2_int (s n : nat) :
  (0 < s)%nat ->
  Rpower 2 (INR n * log2 (INR s)) = IZR (Z.of_nat s ^ Z.of_nat n).
Proof.
  intros Hs. rewrite Rpower2_log2 by (apply lt_0_INR; exact Hs).
  rewrite INR_IZR_INZ. apply pow_IZR.
Qed.

(** [log2] of an integer against a fraction, by comparing integer
    powers. *)
Lemma log2_lt_frac (s : Z) (a b : nat) :
  (0 < s)%Z -> (0 < b)%nat ->
  (s ^ Z.of_nat b < 2 ^ Z.of_nat a)%Z ->
  log2 (IZR s) < INR a / INR b.
Proof.
  intros Hs Hb Hpow.
  assert (Hs' : 0 < IZR s) by (apply IZR_lt; exact Hs).
  assert (Hb' : 0 < INR b) by (apply lt_0_INR; exact Hb).
  apply IZR_lt in Hpow. rewrite <- !pow_IZR in Hpow.
  apply ln_increasing in Hpow; [|apply pow_lt; exact Hs'].
  rewrite !ln_pow in Hpow by lra.
  pose proof ln2_pos as H2. unfold log2.
  apply (Rmult_lt_reg_r (ln 2 * INR b)); [nra|].
  replace (ln (IZR s) / ln 2 * (ln 2 * INR b)) with (INR b * ln (IZR s))
    by (field; lra).
  replace (INR a / INR b * (ln 2 * INR b)) with (INR a * ln 2)
    by (field; lra).
  exact Hpow.
Qed.

Lemma frac_lt_log2 (s : Z) (a b : nat) :
  (0 < s)%Z -> (0 < b)%nat ->
  (2 ^ Z.of_nat a < s ^ Z.of_nat b)%Z ->
  INR a / INR b < log2 (IZR s).
Proof.
  intros Hs Hb Hpow.
  assert (Hs' : 0 < IZR s) by (apply IZR_lt; exact Hs).
  assert (Hb' : 0 < INR b) by (apply lt_0_INR; exact Hb).
  apply IZR_lt in Hpow. rewrite <- !pow_IZR in Hpow.
  apply ln_increasing in Hpow; [|apply pow_lt; lra].
  rewrite !ln_pow in Hpow by lra.
  pose proof ln2_pos as H2. unfold log2.
  apply (Rmult_lt_reg_r (ln 2 * INR b)); [nra|].
  replace (ln (IZR s) / ln 2 * (ln 2 * INR b)) with (INR b * ln (IZR s))
    by (field; lra).
  replace (INR a / INR b * (ln 2 * INR b)) with (INR a * ln 2)
    by (field; lra).
  exact Hpow.
Qed.

(** [2 ** entropy] on the entropy of [n] characters over [s] symbols. *)
Lemma pow2_entropy (s n : nat) :
  (0 < s)%nat ->
  pow2 (INR n * log2 (INR s)) =
  if (Z.of_nat s ^ Z.of_nat n <? 2 ^ 1024 - 2 ^ 970)%Z
  then Ok (IZR (Z.of_nat s ^ Z.of_nat n))
  else Raise OverflowError.
Proof.
  intros Hs. unfold pow2, double_overflow.
  rewrite (Rpower2_log2_int s n Hs).
  destruct (Z.ltb_spec (Z.of_nat s ^ Z.of_nat n) (2 ^ 1024 - 2 ^ 970))
    as [Hlt|Hge];
    destruct (Rlt_dec _ _) as [Hr|Hr]; try reflexivity.
  - exfalso. apply Hr. apply IZR_lt. exact Hlt.
  - exfalso. apply lt_IZR in Hr. lia.
Qed.

Lemma round_half_even_bounds (x : R) (a b : Z) :
  IZR a <= x <= IZR b -> (a <= round_half_even x <= b)%Z.
Proof.
  intros [Ha Hb]. unfold round_half_even.
  pose proof (Zfloor_bound x) as [Hlo Hhi].
  assert (Hfa : (a <= Zfloor x)%Z) by (apply Zfloor_lub; exact Ha).
  assert (Hfb : (Zfloor x <= b)%Z) by (apply le_IZR; lra).
  assert (Hup : 1 / 2 <= x - IZR (Zfloor x) -> (Zfloor x + 1 <= b)%Z).
  { intros Hf. destruct (Z.eq_dec (Zfloor x) b) as [Heq|Hne]; [|lia].
    rewrite Heq in Hf. lra. }
  destruct (Rlt_dec _ _) as [Hf|Hf]; [lia|].
  destruct (Rlt_dec _ _) as [Hf'|Hf']; [split; [lia|apply Hup; lra]|].
  destruct (Z.even _); [lia|]. split; [lia|apply Hup; lra].
Qed.

Lemma round_half_even_near (x : R) (k : Z) :
  IZR k - 1 / 2 < x < IZR k + 1 / 2 -> round_half_even x = k.
Proof.
  intros [Hlo Hhi]. unfold round_half_even.
  pose proof (Zfloor_bound x) as [Hfl Hfh].
  assert (H1 : (Zfloor x < k + 1)%Z).
  { apply lt_IZR. rewrite plus_IZR. lra. }
  assert (H2 : (k - 1 < Zfloor x + 1)%Z).
  { apply lt_IZR. rewrite plus_IZR, minus_IZR. lra. }
  destruct (Z.eq_dec (Zfloor x) k) as [Heq|Hne].
  - rewrite Heq. destruct (Rlt_dec _ _) as [Hf|Hf]; [reflexivity|lra].
  - assert (Heq : Zfloor x = (k - 1)%Z) by lia.
    rewrite Heq, minus_IZR.
    destruct (Rlt_dec _ _) as [Hf|Hf]; [lra|].
    destruct (Rlt_dec _ _) as [Hf'|Hf']; [lia|lra].
Qed.

Lemma round2_bounds (x : R) : 0 <= x <= 100 -> 0 <= round2 x <= 100.
Proof.
  intros Hx. unfold round2.
  destruct (round_half_even_bounds (x * 100) 0 10000) as [Hlo Hhi];
    [lra|].
  apply IZR_le in Hlo, Hhi. lra.
Qed.

Lemma round2_0 : round2 0 = 0.
Proof.
  unfold round2. rewrite (round_half_even_near (0 * 100) 0) by lra. lra.
Qed.

Lemma round2_pos (x : R) : 1 <= x -> 0 < round2 x.
Proof.
  intros Hx. unfold round2.
  pose proof (Zfloor_bound (x * 100)) as [_ Hhi].
  destruct (round_half_even_bounds (x * 100) 100 (Zfloor (x * 100) + 1))
    as [Hlo _].
  { rewrite plus_IZR. lra. }
  apply IZR_le in Hlo. lra.
Qed.

Lemma log2_ge_1 (x : R) : 2 <= x -> 1 <= log2 x.
Proof.
  intros Hx. unfold log2. pose proof ln2_pos as H2.
  assert (Hln : ln 2 <= ln x).
  { destruct (Req_dec x 2) as [->|Hne]; [lra|].
    apply Rlt_le. apply ln_increasing; lra. }
  apply (Rmult_le_reg_r (ln 2)); [exact H2|].
  replace (ln x / ln 2 * ln 2) with (ln x) by (field; lra). lra.
Qed.

End Reals.

(** ** The analyzers never fail *)

Section Totality.

Context `{U : Unicode}.

Lemma digit_steps_cons (a b : codepoint) (w : str) :
  digit_steps (a :: b :: w) =
  let* vb := int_ b in
  let* va := int_ a in
  if (vb - va =? 1)%Z then digit_steps (b :: w) else Ok false.
Proof. reflexivity. Qed.

Lemma digit_steps_total (w : str) :
  forallb is_decimal w = true -> exists b, digit_steps w = Ok b.
Proof.
  induction w as [|a w IH]; intros Hw; [eexists; reflexivity|].
  destruct w as [|b w]; [eexists; reflexivity|].
  simpl in Hw. apply andb_prop in Hw as [Ha Hw].
  specialize (IH Hw). apply andb_prop in Hw as [Hb _].
  rewrite digit_steps_cons. unfold int_, is_decimal in *.
  destruct (uni_decimal b); [|discriminate].
  destruct (uni_decimal a); [|discriminate].
  cbn [bind]. destruct (_ =? _)%Z; [exact IH|eexists; reflexivity].
Qed.

Lemma keep_sequential_digits_total (seqs : list str) :
  (forall w, In w seqs -> forallb is_decimal w = true) ->
  exists l, keep_sequential seqs true = Ok l.
Proof.
  induction seqs as [|w seqs IH]; intros Hall; [eexists; reflexivity|].
  cbn [keep_sequential]. unfold _is_sequential.
  destruct IH as [l Hl]; [intros w' Hw'; apply Hall; right; exact Hw'|].
  rewrite Hl. destruct (_ <? _)%nat; [eexists; reflexivity|].
  destruct (digit_steps_total w) as [b Hb]; [apply Hall; left; reflexivity|].
  rewrite Hb. eexists; reflexivity.
Qed.

Lemma keep_sequential_letters_total (seqs : list str) :
  exists l, keep_sequential seqs false = Ok l.
Proof.
  induction seqs as [|w seqs [l Hl]]; [eexists; reflexivity|].
  cbn [keep_sequential]. unfold _is_sequential. rewrite Hl.
  destruct (_ <? _)%nat; eexists; reflexivity.
Qed.

(** [_detect_patterns] returns: the only call that could raise, [int],
    is applied to characters [\d] has matched. *)
Lemma detect_patterns_total (self : PasswordStrengthChecker) (pw : str) :
  exists p, _detect_patterns self pw = Ok p.
Proof.
  unfold _detect_patterns.
  destruct (keep_sequential_digits_total (findall re_digits3 pw))
    as [sd Hsd].
  { intros w Hw. apply findall_rep_set in Hw. exact Hw. }
  destruct (keep_sequential_letters_total
              (findall re_letters3 (uni_lower pw))) as [sl Hsl].
  rewrite Hsd, Hsl. eexists; reflexivity.
Qed.

Lemma detect_patterns_repetitive (self : PasswordStrengthChecker)
    (pw : str) (p : Patterns.t) :
  _detect_patterns self pw = Ok p ->
  Patterns.repetitive_chars p =
  map (fun m => str_mul (whole m) (length (whole m)))
    (finditer re_repeat pw).
Proof.
  unfold _detect_patterns.
  destruct (keep_sequential _ true); [|discriminate].
  destruct (keep_sequential _ false); [|discriminate].
  intros Hp. inversion Hp. reflexivity.
Qed.

(** The alphabet is empty only for the empty password. *)
Lemma first_char_class (c : codepoint) :
  is_az c || is_AZ c || is_decimal c ||
  negb (is_az c || is_AZ c || is_09 c) = true.
Proof.
  destruct (is_az c) eqn:Haz; [reflexivity|].
  destruct (is_AZ c) eqn:HAZ; [reflexivity|].
  destruct (is_09 c) eqn:H09; simpl; [|apply orb_true_r].
  unfold is_decimal. rewrite uni_decimal_ascii, H09; [reflexivity|].
  revert H09. range_cases.
Qed.

Lemma character_set_size_formula (pw : str) :
  let ca := _analyze_characters pw in
  Chars.character_set_size ca =
  ((if Chars.has_lowercase ca then 26 else 0) +
   (if Chars.has_uppercase ca then 26 else 0) +
   (if Chars.has_digits ca then 10 else 0) +
   (if Chars.has_symbols ca then 33 else 0) +
   (if Chars.has_unicode ca then 100 else 0))%nat.
Proof. reflexivity. Qed.

Lemma character_set_size_pos (pw : str) :
  pw <> [] -> (10 <= Chars.character_set_size (_analyze_characters pw))%nat.
Proof.
  destruct pw as [|c pw]; [congruence|]. intros _.
  unfold _analyze_characters. cbn [Chars.character_set_size].
  unfold re_lower, re_upper, re_digit, re_symbol, re_unicode.
  rewrite !search_set. cbn [existsb].
  pose proof (first_char_class c) as Hc.
  destruct (is_az c); [simpl; lia|].
  destruct (is_AZ c); [simpl; lia|].
  destruct (is_decimal c); [simpl; lia|].
  cbn [orb] in *. rewrite Hc. simpl. lia.
Qed.

Lemma character_set_size_empty :
  Chars.character_set_size (_analyze_characters []) = 0%nat.
Proof. reflexivity. Qed.

(** What [analyze] does on a non-empty password: the report below,
    unless [2 ** entropy] overflows. *)
Lemma analyze_nonempty (self : PasswordStrengthChecker) (now pw : str) :
  pw <> [] ->
  exists patterns,
    _detect_patterns self pw = Ok patterns /\
    let n := length pw in
    let ca := _analyze_characters pw in
    let dc := _check_dictionary self pw in
    let entropy := (INR n * log2 (INR (Chars.character_set_size ca)))%R in
    let raw := _calculate_score n ca patterns dc entropy in
    analyze self now pw =
    if (Z.of_nat (Chars.character_set_size ca) ^ Z.of_nat n
        <? 2 ^ 1024 - 2 ^ 970)%Z
    then
      let ct :=
        cracking_estimates
          (IZR (Z.of_nat (Chars.character_set_size ca) ^ Z.of_nat n)) in
      Ok {| Report.password := str_mul (of_string "*") n;
            Report.length := n;
            Report.entropy_bits := round2 entropy;
            Report.score := round2 raw;
            Report.category := _categorize_strength raw;
            Report.cracking_time := Some ct;
            Report.character_analysis := Some ca;
            Report.patterns_detected := Some patterns;
            Report.dictionary_check := Some dc;
            Report.recommendations :=
              _generate_recommendations n ca patterns dc entropy raw;
            Report.timestamp := now |}
    else Raise OverflowError.
Proof.
  intros Hpw. destruct (detect_patterns_total self pw) as [p Hp].
  exists p. split; [exact Hp|]. cbv zeta.
  pose proof (character_set_size_pos pw Hpw) as Hsize.
  unfold analyze. rewrite Hp.
  destruct pw as [|c pw]; [congruence|]. cbn [nonempty negb bind].
  unfold _calculate_entropy.
  destruct (Chars.character_set_size _) as [|s] eqn:Hs; [lia|].
  cbn [Nat.eqb orb length].
  unfold _estimate_cracking_time.
  rewrite pow2_entropy by lia.
  destruct (_ <? _)%Z; reflexivity.
Qed.

End Totality.

(** ** ASCII passwords do not depend on the Unicode tables *)

Section AsciiTables.

Context `{U : Unicode}.

Lemma uni_lower_on_ascii :
  uni_lower =
  fun s => if forallb is_ascii s then map ascii_lower s else uni_lower s.
Proof.
  apply functional_extensionality. intros s.
  destruct (forallb is_ascii s) eqn:Hs; [|reflexivity].
  apply uni_lower_ascii. exact Hs.
Qed.

Lemma uni_decimal_on_ascii :
  uni_decimal =
  fun c => if is_ascii c
           then (if is_09 c then Some (c - 48)%N else None)
           else uni_decimal c.
Proof.
  apply functional_extensionality. intros c.
  destruct (is_ascii c) eqn:Hc; [|reflexivity].
  apply uni_decimal_ascii. exact Hc.
Qed.

Lemma uni_isalpha_on_ascii :
  uni_isalpha =
  fun c => if is_ascii c then is_az c || is_AZ c else uni_isalpha c.
Proof.
  apply functional_extensionality. intros c.
  destruct (is_ascii c) eqn:Hc; [|reflexivity].
  apply uni_isalpha_ascii. exact Hc.
Qed.

Lemma uni_isdigit_on_ascii :
  uni_isdigit = fun c => if is_ascii c then is_09 c else uni_isdigit c.
Proof.
  apply functional_extensionality. intros c.
  destruct (is_ascii c) eqn:Hc; [|reflexivity].
  apply uni_isdigit_ascii. exact Hc.
Qed.

End AsciiTables.

(** Evaluate an analyzer on an ASCII password, whatever the tables. *)
Ltac expose_tables_in H :=
  unfold _detect_patterns, _analyze_characters, _check_dictionary,
    keep_sequential, _is_sequential, digit_steps, int_, isdigit, isalpha,
    re_digits3, re_year, re_date, re_digit, is_decimal in H;
  repeat match type of H with
  | context [@uni_lower ?u] =>
      is_var u; rewrite (@uni_lower_on_ascii u) in H; revert H;
      generalize (@uni_lower u); intros ? H
  | context [@uni_decimal ?u] =>
      is_var u; rewrite (@uni_decimal_on_ascii u) in H; revert H;
      generalize (@uni_decimal u); intros ? H
  | context [@uni_isalpha ?u] =>
      is_var u; rewrite (@uni_isalpha_on_ascii u) in H; revert H;
      generalize (@uni_isalpha u); intros ? H
  | context [@uni_isdigit ?u] =>
      is_var u; rewrite (@uni_isdigit_on_ascii u) in H; revert H;
      generalize (@uni_isdigit u); intros ? H
  end.

Ltac ascii_eval_in H := expose_tables_in H; vm_compute in H.

(** Name an analyzer's result on an ASCII password and evaluate it. *)
Ltac ascii_value t :=
  let v := fresh "v" in
  let Hv := fresh "Hv" in
  remember t as v eqn:Hv in *; ascii_eval_in Hv; subst v.

(** ** The score *)

Section Score.

Context `{U : Unicode}.

Local Open Scope R_scope.

Lemma calculate_score_range (n : nat) (ca : Chars.t) (p : Patterns.t)
    (dc : Dict.t) (e : R) :
  0 <= _calculate_score n ca p dc e <= 100.
Proof.
  unfold _calculate_score. cbv zeta. split.
  - apply Rmin_glb; [lra|apply Rmax_l].
  - apply Rmin_l.
Qed.

(** [_categorize_strength] read as the five bands. *)
Lemma categorize_strength_bands (x : R) :
  (x < 30 /\ _categorize_strength x = of_string "Very Weak") \/
  (30 <= x < 50 /\ _categorize_strength x = of_string "Weak") \/
  (50 <= x < 70 /\ _categorize_strength x = of_string "Medium") \/
  (70 <= x < 90 /\ _categorize_strength x = of_string "Strong") \/
  (90 <= x /\ _categorize_strength x = of_string "Very Strong").
Proof.
  unfold _categorize_strength.
  destruct (Rlt_dec x 30); [left; split; [lra|reflexivity]|].
  destruct (Rlt_dec x 50); [right; left; split; [lra|reflexivity]|].
  destruct (Rlt_dec x 70); [right; right; left; split; [lra|reflexivity]|].
  destruct (Rlt_dec x 90);
    [right; right; right; left; split; [lra|reflexivity]|].
  right; right; right; right. split; [lra|reflexivity].
Qed.

(** Each label stands for one band, the upper bound excluded. *)
Lemma categorize_strength_iff (x : R) :
  (x < 30 <-> _categorize_strength x = of_string "Very Weak") /\
  (30 <= x < 50 <-> _categorize_strength x = of_string "Weak") /\
  (50 <= x < 70 <-> _categorize_strength x = of_string "Medium") /\
  (70 <= x < 90 <-> _categorize_strength x = of_string "Strong") /\
  (90 <= x <-> _categorize_strength x = of_string "Very Strong").
Proof.
  unfold _categorize_strength.
  destruct (Rlt_dec x 30); [|destruct (Rlt_dec x 50);
    [|destruct (Rlt_dec x 70); [|destruct (Rlt_dec x 90)]]];
    repeat split; intros; try reflexivity; try lra;
    match goal with
    | H : of_string _ = of_string _ |- _ => vm_compute in H; discriminate H
    end.
Qed.

End Score.

(** ** The report of [analyze] *)

Section Reports.

Context `{U : Unicode}.

Lemma entropy_nonempty (pw : str) :
  pw <> [] ->
  let ca := _analyze_characters pw in
  _calculate_entropy pw ca =
    (INR (length pw) * log2 (INR (Chars.character_set_size ca)))%R /\
  (0 < _calculate_entropy pw ca)%R.
Proof.
  intros Hpw. cbv zeta.
  pose proof (character_set_size_pos pw Hpw) as Hsize.
  unfold _calculate_entropy.
  destruct (Chars.character_set_size _) as [|s] eqn:Hs; [lia|].
  destruct pw as [|c pw]; [congruence|].
  cbn [Nat.eqb orb]. split; [reflexivity|].
  apply Rmult_lt_0_compat; [apply lt_0_INR; simpl; lia|].
  apply log2_pos. apply (lt_INR 1). lia.
Qed.

(** C5. [analyze("")] returns the empty-report sentinel: length 0, score
    0.0, category "Very Weak", the single recommendation "Please enter a
    password to analyze"; no analyzer has run, so every sub-report is the
    empty dict. *)
Theorem analyze_empty_password (self : PasswordStrengthChecker) (now : str) :
  exists r,
    analyze self now (of_string "") = Ok r /\
    r = _empty_report now /\
    Report.length r = 0%nat /\
    Report.score r = 0%R /\
    Report.category r = of_string "Very Weak" /\
    Report.recommendations r =
      [of_string "Please enter a password to analyze"] /\
    Report.cracking_time r = None /\
    Report.character_analysis r = None /\
    Report.patterns_detected r = None /\
    Report.dictionary_check r = None.
Proof.
  exists (_empty_report now). repeat split; reflexivity.
Qed.

(** How the alphabet is counted: a class adds its constant when the
    password has a character of the class. *)
Lemma character_set_size_of_characters (pw : str) :
  Chars.character_set_size (_analyze_characters pw) =
  ((if existsb is_az pw then 26 else 0) +
   (if existsb is_AZ pw then 26 else 0) +
   (if existsb is_decimal pw then 10 else 0) +
   (if existsb (fun c => negb (is_az c || is_AZ c || is_09 c)) pw
    then 33 else 0) +
   (if existsb (fun c => negb (is_ascii c)) pw then 100 else 0))%nat.
Proof.
  unfold _analyze_characters. cbn [Chars.character_set_size].
  unfold re_lower, re_upper, re_digit, re_symbol, re_unicode.
  rewrite !search_set. reflexivity.
Qed.

(** C7. The entropy of a password is length x log2(alphabet size). The
    alphabet size is the sum, over the classes of which the password has a
    character, of 26 (a-z), 26 (A-Z), 10 (a decimal digit, as [\d] matches
    it), 33 (anything but a-z, A-Z, 0-9) and 100 (anything outside ASCII).
    The entropy is 0 exactly for the empty password, and so is the alphabet
    size. (For the empty password both sides of the first equation are 0:
    the length is.) The report shows this entropy rounded to two decimals,
    which is 0 exactly for the empty password too. *)
Theorem entropy_is_length_times_log2_alphabet
    (self : PasswordStrengthChecker) (now pw : str) :
  let ca := _analyze_characters pw in
  let entropy := _calculate_entropy pw ca in
  entropy = (INR (length pw) * log2 (INR (Chars.character_set_size ca)))%R /\
  Chars.character_set_size ca =
    ((if existsb is_az pw then 26 else 0) +
     (if existsb is_AZ pw then 26 else 0) +
     (if existsb is_decimal pw then 10 else 0) +
     (if existsb (fun c => negb (is_az c || is_AZ c || is_09 c)) pw
      then 33 else 0) +
     (if existsb (fun c => negb (is_ascii c)) pw then 100 else 0))%nat /\
  (entropy = 0%R <-> pw = []) /\
  (Chars.character_set_size ca = 0%nat <-> pw = []) /\
  match analyze self now pw with
  | Ok r =>
      Report.entropy_bits r = round2 entropy /\
      (Report.entropy_bits r = 0%R <-> pw = [])
  | Raise _ => pw <> []
  end.
Proof.
  cbv zeta. destruct (decide (pw = [])) as [->|Hpw].
  - split; [unfold _calculate_entropy; simpl; lra|].
    split; [reflexivity|]. split; [split; reflexivity|].
    split; [split; reflexivity|]. cbn.
    split; [symmetry; apply round2_0|split; reflexivity].
  - destruct (entropy_nonempty pw Hpw) as [Heq Hpos].
    pose proof (character_set_size_pos pw Hpw) as Hsize.
    split; [exact Heq|]. split; [apply character_set_size_of_characters|].
    split; [split; intros H; [lra|contradiction]|].
    split; [split; intros H; [lia|contradiction]|].
    destruct (analyze_nonempty self now pw Hpw) as (p & _ & Ha).
    cbv zeta in Ha. rewrite Ha, Heq.
    destruct (_ <? _)%Z; [|exact Hpw].
    cbn [Report.entropy_bits]. split; [reflexivity|].
    split; [|contradiction]. intros Hzero. exfalso.
    assert (Hone : (1 <= INR (length pw) *
                         log2 (INR (Chars.character_set_size
                                      (_analyze_characters pw))))%R).
    { assert (Hn : (1 <= INR (length pw))%R).
      { apply (le_INR 1). destruct pw; [congruence|simpl; lia]. }
      assert (Hl : (1 <= log2 (INR (Chars.character_set_size
                                      (_analyze_characters pw))))%R).
      { apply log2_ge_1. apply (le_INR 2). lia. }
      nra. }
    apply round2_pos in Hone. lra.
Qed.

(** C8. Two calls of [analyze] on one engine and one password agree on
    every field of the report but the timestamp (and raise the same error
    when they raise). *)
Theorem analyze_deterministic_but_timestamp (self : PasswordStrengthChecker)
    (pw now1 now2 : str) :
  match analyze self now1 pw, analyze self now2 pw with
  | Ok r1, Ok r2 =>
      Report.password r1 = Report.password r2 /\
      Report.length r1 = Report.length r2 /\
      Report.entropy_bits r1 = Report.entropy_bits r2 /\
      Report.score r1 = Report.score r2 /\
      Report.category r1 = Report.category r2 /\
      Report.cracking_time r1 = Report.cracking_time r2 /\
      Report.character_analysis r1 = Report.character_analysis r2 /\
      Report.patterns_detected r1 = Report.patterns_detected r2 /\
      Report.dictionary_check r1 = Report.dictionary_check r2 /\
      Report.recommendations r1 = Report.recommendations r2 /\
      Report.timestamp r1 = now1 /\ Report.timestamp r2 = now2
  | Raise e1, Raise e2 => e1 = e2
  | _, _ => False
  end.
Proof.
  unfold analyze. destruct (negb (nonempty pw)).
  - repeat split; reflexivity.
  - destruct (_detect_patterns self pw); cbn [bind]; [|reflexivity].
    destruct (_estimate_cracking_time _); cbn [bind]; [|reflexivity].
    repeat split; reflexivity.
Qed.

(** C6, as the code has it. When [analyze] returns, the score of the
    report is between 0 and 100 and is [raw] rounded to two decimals, where
    [raw] is what [_calculate_score] returns for the password (0 for the
    empty password, whose report is the sentinel). The category is the
    label of the band of [raw]: below 30 Very Weak, from 30 and below 50
    Weak, from 50 and below 70 Medium, from 70 and below 90 Strong, from 90
    Very Strong. The only error [analyze] raises is [OverflowError]. *)
Theorem score_range_and_category_of_unrounded_score
    (self : PasswordStrengthChecker) (now pw : str) :
  match analyze self now pw with
  | Ok r =>
      (0 <= Report.score r <= 100)%R /\
      exists raw : R,
        (if nonempty pw
         then exists patterns,
                _detect_patterns self pw = Ok patterns /\
                raw = _calculate_score (length pw) (_analyze_characters pw)
                        patterns (_check_dictionary self pw)
                        (_calculate_entropy pw (_analyze_characters pw))
         else raw = 0%R) /\
        (0 <= raw <= 100)%R /\
        Report.score r = round2 raw /\
        Report.category r = _categorize_strength raw /\
        ((raw < 30 <-> Report.category r = of_string "Very Weak") /\
         (30 <= raw < 50 <-> Report.category r = of_string "Weak") /\
         (50 <= raw < 70 <-> Report.category r = of_string "Medium") /\
         (70 <= raw < 90 <-> Report.category r = of_string "Strong") /\
         (90 <= raw <-> Report.category r = of_string "Very Strong"))%R
  | Raise e => e = OverflowError
  end.
Proof.
  destruct (decide (pw = [])) as [->|Hpw].
  - change (analyze self now []) with (Ok (_empty_report now)).
    unfold _empty_report. cbn [Report.score Report.category nonempty].
    split; [lra|]. exists 0%R. split; [reflexivity|]. split; [lra|].
    split; [symmetry; apply round2_0|].
    assert (Hcat : of_string "Very Weak" = _categorize_strength 0).
    { unfold _categorize_strength.
      destruct (Rlt_dec 0 30); [reflexivity|lra]. }
    split; [exact Hcat|].
    pose proof (categorize_strength_iff 0) as Hiff.
    rewrite <- Hcat in Hiff. exact Hiff.
  - destruct (analyze_nonempty self now pw Hpw) as (p & Hp & Ha).
    destruct (entropy_nonempty pw Hpw) as [Hent _].
    cbv zeta in Ha. rewrite <- Hent in Ha. rewrite Ha.
    destruct (_ <? _)%Z; [|reflexivity].
    cbn [Report.score Report.category].
    match goal with |- context [round2 ?x] => set (raw := x) end.
    assert (Hraw : (0 <= raw <= 100)%R) by apply calculate_score_range.
    split; [apply round2_bounds; exact Hraw|].
    exists raw. split.
    { destruct pw; [congruence|]. cbn [nonempty].
      exists p. split; [exact Hp|reflexivity]. }
    split; [exact Hraw|]. split; [reflexivity|]. split; [reflexivity|].
    apply categorize_strength_iff.
Qed.

End Reports.

(** ** Character classes overlap *)

Section Classes.

Context `{U : Unicode}.

Lemma non_ascii_not_letter_or_digit (c : codepoint) :
  is_ascii c = false ->
  is_az c = false /\ is_AZ c = false /\ is_09 c = false.
Proof. intros Hc. repeat split; revert Hc; range_cases. Qed.

(** Whatever is outside ASCII is matched by [[^a-zA-Z0-9]] too. *)
Lemma unicode_implies_symbol (pw : str) :
  let ca := _analyze_characters pw in
  Chars.has_unicode ca = true -> Chars.has_symbols ca = true.
Proof.
  cbv zeta. unfold _analyze_characters.
  cbn [Chars.has_unicode Chars.has_symbols].
  unfold re_unicode, re_symbol. rewrite !search_set.
  induction pw as [|c pw IH]; [discriminate|].
  cbn [existsb]. intros Hu. apply orb_prop in Hu as [Hc|Hpw].
  - apply Bool.negb_true_iff in Hc.
    destruct (non_ascii_not_letter_or_digit c Hc) as (-> & -> & ->).
    reflexivity.
  - rewrite (IH Hpw). apply orb_true_r.
Qed.

Lemma existsb_In (p : codepoint -> bool) (pw : str) (c : codepoint) :
  In c pw -> p c = true -> existsb p pw = true.
Proof. intros Hin Hc. apply existsb_exists. exists c. auto. Qed.

(** C3, as the code has it. For every password, has_unicode says that
    the password has a character outside ASCII, and has_symbols that it
    has a character other than a-z, A-Z and 0-9; so a non-ASCII character
    sets both. A non-empty password of non-ASCII characters only has no
    lower-case and no upper-case letter, has symbols and unicode, and its
    alphabet size is 133, plus 10 when one of its characters is a decimal
    digit as [\d] matches it. *)
Theorem non_ascii_password_classes (pw : str) :
  let ca := _analyze_characters pw in
  Chars.has_unicode ca = existsb (fun c => negb (is_ascii c)) pw /\
  Chars.has_symbols ca =
    existsb (fun c => negb (is_az c || is_AZ c || is_09 c)) pw /\
  (forall c, In c pw -> is_ascii c = false ->
             Chars.has_unicode ca = true /\ Chars.has_symbols ca = true) /\
  (nonempty pw = true ->
   forallb (fun c => negb (is_ascii c)) pw = true ->
   Chars.has_lowercase ca = false /\
   Chars.has_uppercase ca = false /\
   Chars.has_symbols ca = true /\
   Chars.has_unicode ca = true /\
   Chars.has_digits ca = existsb is_decimal pw /\
   Chars.character_set_size ca =
     (133 + if existsb is_decimal pw then 10 else 0)%nat).
Proof.
  cbv zeta.
  assert (Huni : Chars.has_unicode (_analyze_characters pw) =
                 existsb (fun c => negb (is_ascii c)) pw).
  { unfold _analyze_characters. cbn [Chars.has_unicode].
    unfold re_unicode. rewrite search_set. reflexivity. }
  assert (Hsym : Chars.has_symbols (_analyze_characters pw) =
                 existsb (fun c => negb (is_az c || is_AZ c || is_09 c)) pw).
  { unfold _analyze_characters. cbn [Chars.has_symbols].
    unfold re_symbol. rewrite search_set. reflexivity. }
  split; [exact Huni|]. split; [exact Hsym|]. split.
  - intros c Hin Hc. rewrite Huni, Hsym. split.
    + apply (existsb_In _ pw c Hin). rewrite Hc. reflexivity.
    + apply (existsb_In _ pw c Hin).
      destruct (non_ascii_not_letter_or_digit c Hc) as (-> & -> & ->).
      reflexivity.
  - intros Hne Hall.
    assert (Hlow : existsb is_az pw = false /\ existsb is_AZ pw = false).
    { clear Hne Huni Hsym.
      induction pw as [|c pw IH]; [split; reflexivity|].
      cbn [forallb] in Hall. apply andb_prop in Hall as [Hc Hall].
      apply Bool.negb_true_iff in Hc.
      destruct (non_ascii_not_letter_or_digit c Hc) as (Haz & HAZ & _).
      destruct (IH Hall) as [IHl IHu].
      cbn [existsb]. rewrite Haz, HAZ, IHl, IHu. split; reflexivity. }
    destruct pw as [|c pw]; [discriminate|].
    pose proof Hall as Hc. cbn [forallb] in Hc.
    apply andb_prop in Hc as [Hc _]. apply Bool.negb_true_iff in Hc.
    assert (Hu : existsb (fun c => negb (is_ascii c)) (c :: pw) = true).
    { apply (existsb_In _ _ c); [left; reflexivity|].
      rewrite Hc. reflexivity. }
    assert (Hs : existsb (fun c => negb (is_az c || is_AZ c || is_09 c))
                   (c :: pw) = true).
    { apply (existsb_In _ _ c); [left; reflexivity|].
      destruct (non_ascii_not_letter_or_digit c Hc) as (-> & -> & ->).
      reflexivity. }
    destruct Hlow as [Hl HU].
    rewrite character_set_size_of_characters, Hsym, Huni, Hl, HU, Hs, Hu.
    unfold _analyze_characters.
    cbn [Chars.has_lowercase Chars.has_uppercase Chars.has_digits].
    unfold re_lower, re_upper, re_digit. rewrite !search_set, Hl, HU.
    repeat split. destruct (existsb is_decimal (c :: pw)); reflexivity.
Qed.

End Classes.

(** C3, an instance: the password "é" (U+00E9). *)
Lemma non_ascii_password_classes_witness :
  let ca := _analyze_characters (U:=latin1) [233%N] in
  Chars.has_lowercase ca = false /\
  Chars.has_uppercase ca = false /\
  Chars.has_symbols ca = true /\
  Chars.has_unicode ca = true /\
  Chars.has_digits ca = false /\
  Chars.character_set_size ca = 133%nat.
Proof.
  apply (proj2 (proj2 (proj2
           (non_ascii_password_classes (U:=latin1) [233%N]))));
    reflexivity.
Defined.

(** C3 as stated fails on "é": it is counted as a symbol, and the alphabet
    of the one-character password is 133, not 100. *)
Lemma e_acute_is_symbol_and_unicode :
  let ca := _analyze_characters (U:=latin1) [233%N] in
  Chars.has_symbols ca = true /\
  Chars.has_unicode ca = true /\
  Chars.character_set_size ca = 133%nat.
Proof. vm_compute. repeat split; reflexivity. Qed.

(** ** Sample passwords *)

(** A reading of the clock, for the closed examples. *)
Definition noon : str := of_string "2025-01-01T12:00:00".

(** Evaluate the integers under [IZR] and [INR] in the goal. *)
Ltac eval_ints :=
  rewrite ?INR_IZR_INZ;
  repeat match goal with
  | |- context [IZR ?z] =>
      progress (let v := eval vm_compute in z in change z with v)
  end.

Section Samples.

Context `{U : Unicode}.

Lemma password123_report (read_words : string -> option (list str))
    (now : str) :
  exists r,
    analyze (__init__ None read_words) now (of_string "password123") = Ok r /\
    Dict.is_common_password <$> Report.dictionary_check r = Some true /\
    Patterns.sequential_digits <$> Report.patterns_detected r =
      Some [of_string "123"].
Proof.
  destruct (analyze_nonempty (__init__ None read_words) now
              (of_string "password123")) as (p & Hp & Ha); [discriminate|].
  cbv zeta in Ha. ascii_eval_in Hp. injection Hp as <-.
  ascii_value (_analyze_characters (of_string "password123")).
  ascii_value (_check_dictionary (__init__ None read_words)
                 (of_string "password123")).
  cbn [Chars.character_set_size] in Ha.
  destruct (_ <? _)%Z eqn:Hlt in Ha; [|vm_compute in Hlt; discriminate].
  eexists. split; [exact Ha|]. split; reflexivity.
Qed.

(** C2, as the code has it. On an engine built without a dictionary,
    [analyze("password123")] returns a report with
    [is_common_password = True], the string being one of the 35 common
    passwords, and [sequential_digits = ["123"]]. *)
Theorem analyze_password123 (read_words : string -> option (list str))
    (now : str) :
  size _load_common_passwords = 35%nat /\
  of_string "password123" ∈ _load_common_passwords /\
  exists r,
    analyze (__init__ None read_words) now (of_string "password123") = Ok r /\
    Dict.is_common_password <$> Report.dictionary_check r = Some true /\
    Patterns.sequential_digits <$> Report.patterns_detected r =
      Some [of_string "123"].
Proof.
  split; [vm_compute; reflexivity|].
  split.
  { apply (bool_decide_unpack
             (of_string "password123" ∈ _load_common_passwords)).
    vm_compute. exact I. }
  apply password123_report.
Qed.

(** C4 on the code. [analyze("aaa111")] reports, for each run, the run
    repeated as many times as it is long (the whole match times its
    length), not the run: "aaaaaaaaa" and "111111111". "111" is not among
    the sequential digits. *)
Theorem analyze_aaa111_repetitive_chars (now : str) :
  exists r,
    analyze default_checker now (of_string "aaa111") = Ok r /\
    Patterns.repetitive_chars <$> Report.patterns_detected r =
      Some [of_string "aaaaaaaaa"; of_string "111111111"] /\
    Patterns.sequential_digits <$> Report.patterns_detected r = Some [].
Proof.
  destruct (analyze_nonempty default_checker now (of_string "aaa111"))
    as (p & Hp & Ha); [discriminate|].
  cbv zeta in Ha. ascii_eval_in Hp. injection Hp as <-.
  ascii_value (_analyze_characters (of_string "aaa111")).
  cbn [Chars.character_set_size] in Ha.
  destruct (_ <? _)%Z eqn:Hlt in Ha; [|vm_compute in Hlt; discriminate].
  eexists. split; [exact Ha|]. split; reflexivity.
Qed.

(** C1 on the code. On a password of 300 letters "a" the entropy is
    300 x log2(26), about 1410 bits, [2 ** entropy] is out of the range of
    a float, and [analyze] raises [OverflowError] instead of returning a
    report. *)
Theorem analyze_long_password_overflows (self : PasswordStrengthChecker)
    (now : str) :
  analyze self now (List.repeat 97%N 300) = Raise OverflowError.
Proof.
  destruct (analyze_nonempty self now (List.repeat 97%N 300))
    as (p & _ & Ha); [discriminate|].
  cbv zeta in Ha.
  ascii_value (_analyze_characters (List.repeat 97%N 300)).
  cbn [Chars.character_set_size] in Ha.
  destruct (_ <? _)%Z eqn:Hlt in Ha; [vm_compute in Hlt; discriminate|].
  exact Ha.
Qed.

(** [analyze] raises on a non-empty password exactly when the alphabet
    size to the power of the length is out of the range of a float. *)
Lemma analyze_raises_iff_overflow (self : PasswordStrengthChecker)
    (now pw : str) :
  pw <> [] ->
  (exists e, analyze self now pw = Raise e) <->
  (2 ^ 1024 - 2 ^ 970 <=
   Z.of_nat (Chars.character_set_size (_analyze_characters pw)) ^
   Z.of_nat (length pw))%Z.
Proof.
  intros Hpw. destruct (analyze_nonempty self now pw Hpw) as (p & _ & Ha).
  cbv zeta in Ha. rewrite Ha.
  destruct (Z.ltb_spec
              (Z.of_nat (Chars.character_set_size (_analyze_characters pw)) ^
               Z.of_nat (length pw)) (2 ^ 1024 - 2 ^ 970)) as [Hlt|Hge].
  - split; [intros [e He]; discriminate|lia].
  - split; [intros _; exact Hge|intros _; eexists; reflexivity].
Qed.

End Samples.

(** C2 as stated fails: the report of "password123" has
    [is_common_password = True]. *)
Lemma password123_is_common_password :
  exists r,
    analyze (U:=latin1) default_checker noon (of_string "password123") =
      Ok r /\
    Dict.is_common_password <$> Report.dictionary_check r = Some true.
Proof.
  destruct (password123_report (U:=latin1) (fun _ => None) noon)
    as (r & Hr & Hcommon & _).
  exists r. split; [exact Hr|exact Hcommon].
Qed.

Lemma log2_159_bounds : (117 / 16 < log2 159 < 256 / 35)%R.
Proof.
  split.
  - pose proof (frac_lt_log2 159 117 16) as H.
    rewrite !INR_IZR_INZ in H. apply H; [lia|lia|]. vm_compute. reflexivity.
  - pose proof (log2_lt_frac 159 256 35) as H.
    rewrite !INR_IZR_INZ in H. apply H; [lia|lia|]. vm_compute. reflexivity.
Qed.

(** C6 as stated fails on "qwertyé": the score before rounding is
    38 + 7 x log2(159) x 30 / 128, about 49.9977, so the category is
    "Weak", while the report shows the score 50.0, whose band is
    "Medium". *)
Lemma rounded_score_50_with_category_weak :
  exists r,
    analyze (U:=latin1) default_checker noon (of_string "qwerty" ++ [233%N])
      = Ok r /\
    Report.score r = 50%R /\
    Report.category r = of_string "Weak".
Proof.
  destruct (analyze_nonempty (U:=latin1) default_checker noon
              (of_string "qwerty" ++ [233%N])) as (p & Hp & Ha);
    [discriminate|].
  cbv zeta in Ha. vm_compute in Hp. injection Hp as <-.
  ascii_value (@_analyze_characters latin1 (of_string "qwerty" ++ [233%N])).
  ascii_value (@_check_dictionary latin1 default_checker
                 (of_string "qwerty" ++ [233%N])).
  cbn [Chars.character_set_size] in Ha.
  destruct (_ <? _)%Z eqn:Hlt in Ha; [|vm_compute in Hlt; discriminate].
  clear Hlt. eexists. split; [exact Ha|].
  cbn [Report.score Report.category]. clear Ha.
  match goal with |- context [round2 ?x] => set (raw := x) end.
  assert (Hraw : (49997 / 1000 < raw < 50)%R).
  { subst raw. unfold _calculate_score. cbv zeta.
    cbn [Chars.diversity_score]. eval_ints.
    pose proof log2_159_bounds as [Hlo Hhi].
    set (l := log2 159) in *.
    rewrite (Rmin_right 30) by lra.
    rewrite Rmax_right by lra. rewrite Rmin_right by lra. lra. }
  split.
  - unfold round2. rewrite (round_half_even_near _ 5000) by lra. lra.
  - unfold _categorize_strength.
    destruct (Rlt_dec raw 30); [lra|].
    destruct (Rlt_dec raw 50); [reflexivity|lra].
Qed.

(** ** Export *)

(** What writing does. *)

(** The path can be opened for writing. *)
Definition can_open (fs : FS) (filename : string) : bool :=
  negb (has_nul filename) && negb (bool_decide (filename = ""%string)) &&
  negb (bool_decide (filename ∈ unwritable fs)).

Lemma open_w_cases (filename : string) (fs : FS) :
  if can_open fs filename
  then open_w filename fs =
       (Ok tt, {| files := <[filename := []]> (files fs);
                  unwritable := unwritable fs |})
  else (open_w filename fs =
          (Raise (ValueError (of_string "embedded null byte")), fs) /\
        has_nul filename = true) \/
       open_w filename fs = (Raise OSError, fs).
Proof.
  unfold can_open, open_w.
  destruct (has_nul filename); cbn [negb andb]; [left; auto|].
  destruct (bool_decide (filename = ""%string)); cbn [negb andb orb];
    [right; reflexivity|].
  destruct (bool_decide (filename ∈ unwritable fs)); cbn [negb];
    [right; reflexivity|reflexivity].
Qed.

(** The chunks are written up to the first that cannot be encoded. *)
Lemma write_chunks_cases (chunks : list str) :
  forall written : str,
    if forallb encodable chunks
    then write_chunks chunks written = (Ok tt, written ++ concat chunks)
    else exists done rest : str,
           write_chunks chunks written =
             (Raise UnicodeEncodeError, written ++ done) /\
           concat chunks = done ++ rest /\
           encodable done = true /\ encodable rest = false.
Proof.
  induction chunks as [|chunk chunks IH]; intros written.
  - cbn. rewrite app_nil_r. reflexivity.
  - cbn [forallb write_chunks concat].
    destruct (encodable chunk) eqn:Hchunk; cbn [andb].
    + specialize (IH (written ++ chunk)).
      destruct (forallb encodable chunks).
      * rewrite IH, <- app_assoc. reflexivity.
      * destruct IH as (done & rest & Hw & Hc & Hd & Hr).
        exists (chunk ++ done), rest.
        rewrite Hw, Hc, !app_assoc. repeat split; try assumption.
        unfold encodable in *. rewrite forallb_app, Hchunk, Hd. reflexivity.
    + exists [], (chunk ++ concat chunks).
      rewrite app_nil_r. repeat split.
      unfold encodable in *. rewrite forallb_app, Hchunk. reflexivity.
Qed.

(** An export to a path that can be opened leaves the text written until
    the first chunk that cannot be encoded; an export to another path
    leaves everything as it was. *)
Lemma write_file_cases (filename : string) (chunks : list str) (fs : FS) :
  if can_open fs filename
  then
    if forallb encodable chunks
    then write_file filename chunks fs =
         (Ok tt, {| files := <[filename := concat chunks]> (files fs);
                    unwritable := unwritable fs |})
    else exists done rest : str,
           write_file filename chunks fs =
             (Raise UnicodeEncodeError,
              {| files := <[filename := done]> (files fs);
                 unwritable := unwritable fs |}) /\
           concat chunks = done ++ rest /\
           encodable done = true /\ encodable rest = false
  else (write_file filename chunks fs =
          (Raise (ValueError (of_string "embedded null byte")), fs) /\
        has_nul filename = true) \/
       write_file filename chunks fs = (Raise OSError, fs).
Proof.
  unfold write_file. pose proof (open_w_cases filename fs) as Hopen.
  destruct (can_open fs filename).
  - rewrite Hopen. cbn [files unwritable].
    pose proof (write_chunks_cases chunks []) as Hw.
    destruct (forallb encodable chunks).
    + rewrite Hw. cbn [app]. rewrite insert_insert_eq. reflexivity.
    + destruct Hw as (done & rest & Hw & Hc & Hd & Hr).
      exists done, rest. rewrite Hw. cbn [app].
      rewrite insert_insert_eq. auto.
  - destruct Hopen as [[Hopen Hnul]|Hopen]; rewrite Hopen; auto.
Qed.


Section ExportFacts.

Context `{U : Unicode}.
Variable json_dump : Report.t -> list str.
Variable _format_text_report : Report.t -> str.



(** C9, as the code has it. When the lower-cased format is neither "json"
    nor "txt", [export_report] raises [ValueError] and leaves the file
    system as it was: no file is opened. *)
Theorem export_unsupported_format_writes_nothing
    (self : PasswordStrengthChecker) (report : Report.t) (filename : string)
    (format : str) (fs : FS) :
  uni_lower format <> of_string "json" ->
  uni_lower format <> of_string "txt" ->
  export_report json_dump _format_text_report self report
     filename format fs =
  (Raise (ValueError (of_string "Unsupported format: " ++ format)), fs).
Proof.
  intros Hjson Htxt. unfold export_report, str_eqb.
  rewrite !bool_decide_eq_false_2 by assumption. reflexivity.
Qed.

(** What [export_report] does, by the lower-cased format. *)
Lemma export_report_by_format (self : PasswordStrengthChecker)
    (report : Report.t) (filename : string) (format : str) (fs : FS) :
  (uni_lower format = of_string "json" /\
   export_report json_dump _format_text_report self report filename format fs
   = write_file filename (json_dump report) fs) \/
  (uni_lower format = of_string "txt" /\
   export_report json_dump _format_text_report self report filename format fs
   = write_file filename [_format_text_report report] fs) \/
  (uni_lower format <> of_string "json" /\
   uni_lower format <> of_string "txt" /\
   export_report json_dump _format_text_report self report filename format fs
   = (Raise (ValueError (of_string "Unsupported format: " ++ format)), fs)).
Proof.
  unfold export_report, str_eqb.
  destruct (decide (uni_lower format = of_string "json")) as [Hj|Hj].
  - left. rewrite bool_decide_eq_true_2 by exact Hj. auto.
  - rewrite bool_decide_eq_false_2 by exact Hj.
    destruct (decide (uni_lower format = of_string "txt")) as [Ht|Ht].
    + right; left. rewrite bool_decide_eq_true_2 by exact Ht. auto.
    + right; right. rewrite bool_decide_eq_false_2 by exact Ht. auto.
Qed.


End ExportFacts.

(** A file system with no file, where every path but the empty one can
    be opened. *)
Definition empty_fs : FS := {| files := ∅; unwritable := ∅ |}.

(** C9, an instance: the format "xml". *)
Lemma export_unsupported_format_writes_nothing_witness :
  export_report (U:=latin1) (fun _ => []) (fun _ => []) default_checker
    (_empty_report noon) "report.xml" (of_string "xml") empty_fs =
  (Raise (ValueError (of_string "Unsupported format: xml")), empty_fs).
Proof.
  apply (export_unsupported_format_writes_nothing (U:=latin1)
           (fun _ => []) (fun _ => []) default_checker (_empty_report noon)
           "report.xml" (of_string "xml") empty_fs);
    vm_compute; discriminate.
Defined.


(** C9 as stated fails on the format "JSON": it is not one of "json" and
    "txt", and the export succeeds and writes the file. *)
Lemma export_upper_case_JSON_writes_file :
  of_string "JSON" <> of_string "json" /\
  of_string "JSON" <> of_string "txt" /\
  export_report (U:=latin1) (fun _ => [of_string "{}"]) (fun _ => [])
    default_checker (_empty_report noon) "report.json" (of_string "JSON")
    empty_fs =
  (Ok tt, {| files := {[ "report.json"%string := of_string "{}" ]};
             unwritable := ∅ |}).
Proof.
  split; [discriminate|]. split; [discriminate|].
  unfold export_report, str_eqb.
  rewrite bool_decide_eq_true_2 by (vm_compute; reflexivity).
  pose proof (write_file_cases "report.json" [of_string "{}"] empty_fs) as Hw.
  assert (Hopen : can_open empty_fs "report.json" = true).
  { unfold can_open. rewrite !bool_decide_eq_false_2; [reflexivity| |];
      [cbn; set_solver|discriminate]. }
  rewrite Hopen in Hw. cbn [forallb] in Hw.
  assert (Henc : encodable (of_string "{}") = true) by reflexivity.
  rewrite Henc in Hw. cbn [andb] in Hw. rewrite Hw. reflexivity.
Qed.

(** * Further properties of the engine *)

(** ** When [analyze] returns *)

Section Returns.

Context `{U : Unicode}.

Lemma character_set_size_le_195 (pw : str) :
  (Chars.character_set_size (_analyze_characters pw) <= 195)%nat.
Proof.
  rewrite character_set_size_formula.
  repeat match goal with |- context [if ?b then _ else _] => destruct b end;
    lia.
Qed.

(** [analyze] raises nothing but [OverflowError], and raises it exactly
    when the alphabet size to the power of the length is out of the range
    of a float. *)
Theorem analyze_raises_exactly_on_overflow (self : PasswordStrengthChecker)
    (now pw : str) (e : exn) :
  analyze self now pw = Raise e <->
  e = OverflowError /\
  (2 ^ 1024 - 2 ^ 970 <=
   Z.of_nat (Chars.character_set_size (_analyze_characters pw)) ^
   Z.of_nat (length pw))%Z.
Proof.
  destruct (decide (pw = [])) as [->|Hpw].
  - cbn. split; [discriminate|]. intros [_ H]. vm_compute in H.
    exfalso. apply H. reflexivity.
  - destruct (analyze_nonempty self now pw Hpw) as (p & _ & Ha).
    cbv zeta in Ha. rewrite Ha.
    destruct (Z.ltb_spec
                (Z.of_nat (Chars.character_set_size (_analyze_characters pw))
                 ^ Z.of_nat (length pw)) (2 ^ 1024 - 2 ^ 970)) as [Hlt|Hge].
    + split; [discriminate|]. intros [_ H]. lia.
    + split; [intros H; inversion H; split; [reflexivity|exact Hge]|].
      intros [-> _]. reflexivity.
Qed.

Lemma no_overflow_up_to_134 (pw : str) :
  (length pw <= 134)%nat ->
  (Z.of_nat (Chars.character_set_size (_analyze_characters pw)) ^
   Z.of_nat (length pw) <? 2 ^ 1024 - 2 ^ 970)%Z = true.
Proof.
  intros Hlen. apply Z.ltb_lt.
  destruct (decide (pw = [])) as [->|Hpw]; [vm_compute; reflexivity|].
  pose proof (character_set_size_pos pw Hpw) as Hlo.
  pose proof (character_set_size_le_195 pw) as Hhi.
  apply Z.le_lt_trans with (195 ^ 134)%Z; [|vm_compute; reflexivity].
  apply Z.pow_le_mono; lia.
Qed.

(** A password of at most 134 code points is always analysed: whatever its
    characters, [2 ** entropy] stays in the range of a float. *)
Theorem analyze_returns_up_to_134_characters (self : PasswordStrengthChecker)
    (now pw : str) :
  (length pw <= 134)%nat -> exists r, analyze self now pw = Ok r.
Proof.
  intros Hlen. destruct (decide (pw = [])) as [->|Hpw].
  - eexists. reflexivity.
  - destruct (analyze_nonempty self now pw Hpw) as (p & _ & Ha).
    cbv zeta in Ha. rewrite Ha, (no_overflow_up_to_134 pw Hlen).
    eexists. reflexivity.
Qed.

End Returns.

Lemma analyze_returns_up_to_134_characters_witness :
  exists r,
    analyze (U:=latin1) default_checker noon (of_string "Tr0ub4dor&3") = Ok r.
Proof.
  apply (analyze_returns_up_to_134_characters (U:=latin1)).
  simpl. lia.
Defined.

(** ** The reported score and the category *)

Section Rounding.

Local Open Scope R_scope.

Lemma round2_le_int (x : R) (k : Z) :
  0 <= x <= IZR k -> round2 x <= IZR k.
Proof.
  intros [Hlo Hhi]. unfold round2.
  destruct (round_half_even_bounds (x * 100) 0 (k * 100)) as [_ Hle].
  { rewrite mult_IZR. lra. }
  apply IZR_le in Hle. rewrite mult_IZR in Hle. lra.
Qed.

Lemma round2_ge_int (x : R) (k : Z) :
  IZR k <= x <= 100 -> IZR k <= round2 x.
Proof.
  intros [Hlo Hhi]. unfold round2.
  destruct (round_half_even_bounds (x * 100) (k * 100) 10000) as [Hge _].
  { rewrite mult_IZR. lra. }
  apply IZR_le in Hge. rewrite mult_IZR in Hge. lra.
Qed.

(** Rounding to two decimals moves a score across one of the bounds of the
    bands only by landing on it. *)
Lemma categorize_round2 (x : R) :
  0 <= x <= 100 ->
  round2 x = 30 \/ round2 x = 50 \/ round2 x = 70 \/ round2 x = 90 \/
  _categorize_strength (round2 x) = _categorize_strength x.
Proof.
  intros Hx.
  pose proof (round2_le_int x 30) as U30.
  pose proof (round2_le_int x 50) as U50.
  pose proof (round2_le_int x 70) as U70.
  pose proof (round2_le_int x 90) as U90.
  pose proof (round2_ge_int x 30) as L30.
  pose proof (round2_ge_int x 50) as L50.
  pose proof (round2_ge_int x 70) as L70.
  pose proof (round2_ge_int x 90) as L90.
  set (s := round2 x) in *.
  destruct (Req_dec s 30) as [|N30]; [auto|].
  destruct (Req_dec s 50) as [|N50]; [auto|].
  destruct (Req_dec s 70) as [|N70]; [auto|].
  destruct (Req_dec s 90) as [|N90]; [auto|].
  do 4 right. unfold _categorize_strength.
  destruct (Rlt_dec x 30), (Rlt_dec s 30); try reflexivity; try lra.
  destruct (Rlt_dec x 50), (Rlt_dec s 50); try reflexivity; try lra.
  destruct (Rlt_dec x 70), (Rlt_dec s 70); try reflexivity; try lra.
  destruct (Rlt_dec x 90), (Rlt_dec s 90); try reflexivity; try lra.
Qed.

End Rounding.

Section ReportFields.

Context `{U : Unicode}.

(** The category of a report is the band of the score it shows, unless
    that score is exactly 30, 50, 70 or 90: then the score before rounding
    may have been just below. *)
Theorem category_is_band_of_reported_score_off_the_bounds
    (self : PasswordStrengthChecker) (now pw : str) :
  match analyze self now pw with
  | Ok r =>
      Report.score r = 30%R \/ Report.score r = 50%R \/
      Report.score r = 70%R \/ Report.score r = 90%R \/
      Report.category r = _categorize_strength (Report.score r)
  | Raise _ => pw <> []
  end.
Proof.
  destruct (decide (pw = [])) as [->|Hpw].
  - cbn. do 4 right. unfold _categorize_strength.
    destruct (Rlt_dec 0 30); [reflexivity|lra].
  - destruct (analyze_nonempty self now pw Hpw) as (p & _ & Ha).
    cbv zeta in Ha. rewrite Ha.
    destruct (_ <? _)%Z; [|exact Hpw].
    cbn [Report.score Report.category].
    match goal with |- context [round2 ?x] => set (raw := x) end.
    assert (Hraw : (0 <= raw <= 100)%R) by apply calculate_score_range.
    destruct (categorize_round2 raw Hraw) as [H|[H|[H|[H|H]]]]; auto.
Qed.

End ReportFields.

(** ** Cracking-time estimates *)

Section CrackingTime.

Context `{U : Unicode}.

Local Open Scope R_scope.

Lemma not_instant_suffix (a : str) (unit_ : string) :
  last (of_string unit_) <> None ->
  last (of_string unit_) <> Some 116%N ->
  a ++ of_string unit_ <> of_string "Instant".
Proof.
  intros Hne Hlast Heq. apply (f_equal last) in Heq.
  rewrite last_app in Heq.
  destruct (last (of_string unit_)) as [c|] eqn:Hc; [|congruence].
  vm_compute in Heq. exact (Hlast Heq).
Qed.

(** [format_time] answers "Instant" for less than a second and for
    nothing else. *)
Lemma format_time_instant (seconds : R) :
  format_time seconds = of_string "Instant" <-> seconds < 1.
Proof.
  unfold format_time, years.
  destruct (Rlt_dec seconds 1) as [Hlt|Hge]; [split; auto|].
  split; [|intros H; contradiction]. intros Heq. exfalso.
  repeat match type of Heq with
  | (if ?d then _ else _) = _ => destruct d
  end;
    revert Heq; apply not_instant_suffix; vm_compute; congruence.
Qed.

(** The four estimates are ordered: an attacker with more guesses a second
    is never shown as slower than "Instant" when a weaker one is. The
    online estimate is "Instant" exactly when there are fewer than 10
    combinations. *)
Theorem cracking_estimates_instant_chain (entropy : R) :
  match _estimate_cracking_time entropy with
  | Ok ct =>
      (Crack.online_brute_force ct = of_string "Instant" ->
       Crack.offline_cpu ct = of_string "Instant") /\
      (Crack.offline_cpu ct = of_string "Instant" ->
       Crack.offline_gpu ct = of_string "Instant") /\
      (Crack.offline_gpu ct = of_string "Instant" ->
       Crack.cloud_cracking ct = of_string "Instant") /\
      (Crack.online_brute_force ct = of_string "Instant" <->
       Rpower 2 entropy < 10)
  | Raise e => e = OverflowError
  end.
Proof.
  unfold _estimate_cracking_time, pow2.
  destruct (Rlt_dec _ _) as [_|_]; [|reflexivity].
  cbn [bind]. unfold cracking_estimates.
  cbn [Crack.online_brute_force Crack.offline_cpu Crack.offline_gpu
       Crack.cloud_cracking].
  assert (Hpos : 0 < Rpower 2 entropy) by apply exp_pos.
  set (c := Rpower 2 entropy) in *.
  rewrite !format_time_instant.
  repeat split; intros H; lra.
Qed.

End CrackingTime.

(** ** Character counts *)

Section Counts.

Context `{U : Unicode}.

Lemma existsb_filter_length {A} (p : A -> bool) (l : list A) :
  existsb p l = true <-> (0 < length (List.filter p l))%nat.
Proof.
  induction l as [|x l IH]; simpl; [split; [discriminate|lia]|].
  destruct (p x); simpl; [split; [lia|reflexivity]|exact IH].
Qed.

Lemma filter_length_le_impl {A} (p q : A -> bool) (l : list A) :
  (forall x, p x = true -> q x = true) ->
  (length (List.filter p l) <= length (List.filter q l))%nat.
Proof.
  intros Hpq. induction l as [|x l IH]; simpl; [lia|].
  destruct (p x) eqn:Hp.
  - rewrite (Hpq x Hp). simpl. lia.
  - destruct (q x); simpl; lia.
Qed.

Lemma filter_ext_forallb {A} (P p q : A -> bool) (l : list A) :
  forallb P l = true ->
  (forall x, P x = true -> p x = q x) ->
  List.filter p l = List.filter q l.
Proof.
  intros Hall Hpq. induction l as [|x l IH]; [reflexivity|].
  simpl in Hall. apply andb_prop in Hall as [Hx Hl].
  simpl. rewrite (Hpq x Hx), (IH Hl). reflexivity.
Qed.

(** Every character is a lower-case letter, an upper-case letter, an ASCII
    digit or a symbol, and only one of them. *)
Lemma four_classes_partition (pw : str) :
  (length (List.filter is_az pw) + length (List.filter is_AZ pw) +
   length (List.filter is_09 pw) +
   length (List.filter (fun c => negb (is_az c || is_AZ c || is_09 c)) pw) =
   length pw)%nat.
Proof.
  induction pw as [|c pw IH]; [reflexivity|].
  cbn [List.filter length].
  assert (Hc : (is_az c = true /\ is_AZ c = false /\ is_09 c = false) \/
               (is_az c = false /\ is_AZ c = true /\ is_09 c = false) \/
               (is_az c = false /\ is_AZ c = false /\ is_09 c = true) \/
               (is_az c = false /\ is_AZ c = false /\ is_09 c = false)).
  { range_cases; auto 10. }
  destruct Hc as [(-> & -> & ->)|[(-> & -> & ->)|[(-> & -> & ->)|
                  (-> & -> & ->)]]]; simpl; lia.
Qed.

Lemma is_09_decimal (c : codepoint) : is_09 c = true -> is_decimal c = true.
Proof.
  intros Hc. unfold is_decimal. rewrite uni_decimal_ascii, Hc; [reflexivity|].
  revert Hc. range_cases.
Qed.

(** The four counts cover the password: the letters and symbols alone
    never exceed its length, the four together are at least its length,
    and for an ASCII password they are exactly its length. A non-ASCII
    digit is counted twice, as a digit and as a symbol. *)
Theorem character_counts_cover_the_password (pw : str) :
  let ca := _analyze_characters pw in
  (Chars.lowercase_count ca + Chars.uppercase_count ca +
   Chars.symbol_count ca <= length pw)%nat /\
  (length pw <=
   Chars.lowercase_count ca + Chars.uppercase_count ca +
   Chars.digit_count ca + Chars.symbol_count ca)%nat /\
  (forallb is_ascii pw = true ->
   Chars.lowercase_count ca + Chars.uppercase_count ca +
   Chars.digit_count ca + Chars.symbol_count ca = length pw)%nat.
Proof.
  cbv zeta. unfold _analyze_characters.
  cbn [Chars.lowercase_count Chars.uppercase_count Chars.digit_count
       Chars.symbol_count].
  unfold re_lower, re_upper, re_digit, re_symbol.
  rewrite !findall_set_length.
  pose proof (four_classes_partition pw) as Hsum.
  pose proof (filter_length_le_impl is_09 is_decimal pw is_09_decimal) as Hd.
  split; [lia|]. split; [lia|].
  intros Hascii.
  rewrite (filter_ext_forallb is_ascii is_decimal is_09 pw Hascii); [lia|].
  intros c Hc. unfold is_decimal. rewrite (uni_decimal_ascii c Hc).
  destruct (is_09 c); reflexivity.
Qed.

(** A class is flagged as present exactly when its count is positive. *)
Theorem class_flags_agree_with_counts (pw : str) :
  let ca := _analyze_characters pw in
  (Chars.has_lowercase ca = true <-> (0 < Chars.lowercase_count ca)%nat) /\
  (Chars.has_uppercase ca = true <-> (0 < Chars.uppercase_count ca)%nat) /\
  (Chars.has_digits ca = true <-> (0 < Chars.digit_count ca)%nat) /\
  (Chars.has_symbols ca = true <-> (0 < Chars.symbol_count ca)%nat).
Proof.
  cbv zeta. unfold _analyze_characters.
  cbn [Chars.lowercase_count Chars.uppercase_count Chars.digit_count
       Chars.symbol_count Chars.has_lowercase Chars.has_uppercase
       Chars.has_digits Chars.has_symbols].
  unfold re_lower, re_upper, re_digit, re_symbol.
  rewrite !findall_set_length, !search_set.
  repeat split; apply existsb_filter_length.
Qed.

Lemma calculate_diversity_is_20_per_class (a b c d e : bool) :
  _calculate_diversity a b c d e =
  (20 * Z.of_nat (count_true [a; b; c; d; e]))%Z.
Proof. destruct a, b, c, d, e; reflexivity. Qed.

(** An ASCII password has no unicode class: its alphabet is at most 95
    and its diversity score at most 80, 20 for each class present. *)
Theorem ascii_password_alphabet_and_diversity (pw : str) :
  forallb is_ascii pw = true ->
  let ca := _analyze_characters pw in
  Chars.has_unicode ca = false /\
  (Chars.character_set_size ca <= 95)%nat /\
  (Chars.diversity_score ca <= 80)%Z /\
  Chars.diversity_score ca =
    (20 * Z.of_nat (count_true [Chars.has_lowercase ca;
                                Chars.has_uppercase ca;
                                Chars.has_digits ca;
                                Chars.has_symbols ca]))%Z.
Proof.
  intros Hascii. cbv zeta.
  assert (Huni : search re_unicode pw = false).
  { unfold re_unicode. rewrite search_set.
    induction pw as [|c pw IH]; [reflexivity|].
    simpl in Hascii. apply andb_prop in Hascii as [Hc Hpw].
    cbn [existsb]. unfold is_ascii in Hc. rewrite Hc, (IH Hpw). reflexivity. }
  unfold _analyze_characters.
  cbn [Chars.has_unicode Chars.character_set_size Chars.diversity_score
       Chars.has_lowercase Chars.has_uppercase Chars.has_digits
       Chars.has_symbols].
  rewrite Huni. split; [reflexivity|].
  destruct (search re_lower pw), (search re_upper pw), (search re_digit pw),
    (search re_symbol pw); repeat split;
    first [reflexivity | simpl; lia | vm_compute; congruence].
Qed.

End Counts.

Lemma ascii_password_alphabet_and_diversity_witness :
  let ca := _analyze_characters (U:=latin1) (of_string "Tr0ub4dor&3") in
  Chars.has_unicode ca = false /\
  (Chars.character_set_size ca <= 95)%nat /\
  (Chars.diversity_score ca <= 80)%Z /\
  Chars.diversity_score ca =
    (20 * Z.of_nat (count_true [Chars.has_lowercase ca;
                                Chars.has_uppercase ca;
                                Chars.has_digits ca;
                                Chars.has_symbols ca]))%Z.
Proof.
  apply (ascii_password_alphabet_and_diversity (U:=latin1)
           (of_string "Tr0ub4dor&3")).
  reflexivity.
Defined.

(** ** Bounds on the score *)

Section ScoreBounds.

Context `{U : Unicode}.

Local Open Scope R_scope.

Lemma log2_le_mono (x y : R) : 0 < x -> x <= y -> log2 x <= log2 y.
Proof.
  intros Hx Hxy. unfold log2. pose proof ln2_pos as H2.
  apply Rmult_le_compat_r; [left; apply Rinv_0_lt_compat; exact H2|].
  destruct Hxy as [Hlt| ->]; [left; apply ln_increasing; assumption|right].
  reflexivity.
Qed.

Lemma log2_256 : log2 256 = 8.
Proof.
  unfold log2. replace 256 with (2 ^ 8) by lra.
  rewrite ln_pow by lra. simpl INR. field.
  pose proof ln2_pos. lra.
Qed.

Lemma length_score_mono (n m : nat) :
  (n <= m)%nat -> (length_score n <= length_score m)%Z.
Proof.
  intros Hnm. unfold length_score.
  repeat match goal with
  | |- context [(?a <? ?b)%nat] => destruct (Nat.ltb_spec a b)
  end; lia.
Qed.

Lemma length_score_range (n : nat) : (0 <= length_score n <= 15)%Z.
Proof.
  unfold length_score.
  repeat match goal with
  | |- context [(?a <? ?b)%nat] => destruct (Nat.ltb_spec a b)
  end; lia.
Qed.

Lemma dict_score_range (dc : Dict.t) : (0 <= dict_score dc <= 20)%Z.
Proof.
  unfold dict_score.
  destruct (Dict.is_common_password dc), (Dict.contains_dictionary_word dc),
    (Dict.contains_reversed_word dc), (Dict.contains_substituted_word dc);
    cbv zeta; lia.
Qed.

Lemma dict_score_common (dc : Dict.t) :
  Dict.is_common_password dc = true -> (dict_score dc <= 5)%Z.
Proof.
  intros Hc. unfold dict_score. rewrite Hc.
  destruct (Dict.contains_dictionary_word dc),
    (Dict.contains_reversed_word dc), (Dict.contains_substituted_word dc);
    cbv zeta; lia.
Qed.

Lemma pattern_score_range (p : Patterns.t) : (0 <= pattern_score p <= 15)%Z.
Proof.
  unfold pattern_score.
  destruct (nonempty (Patterns.sequential_digits p)),
    (nonempty (Patterns.sequential_letters p)),
    (nonempty (Patterns.repetitive_chars p)),
    (nonempty (Patterns.keyboard_patterns p)),
    (nonempty (Patterns.common_patterns p)); cbv zeta; lia.
Qed.

Lemma diversity_range (pw : str) :
  (0 <= Chars.diversity_score (_analyze_characters pw) <= 100)%Z.
Proof.
  unfold _analyze_characters. cbn [Chars.diversity_score].
  rewrite calculate_diversity_is_20_per_class.
  destruct (search re_lower pw), (search re_upper pw), (search re_digit pw),
    (search re_symbol pw), (search re_unicode pw); vm_compute;
    split; congruence.
Qed.

(** The score is the clamped sum of its five parts. *)
Lemma calculate_score_sum (n : nat) (ca : Chars.t) (p : Patterns.t)
    (dc : Dict.t) (e : R) :
  _calculate_score n ca p dc e =
  Rmin 100
    (Rmax 0
       (IZR (length_score n) + Rmin 30 (e / 128 * 30) +
        IZR (Chars.diversity_score ca) / 100 * 20 +
        IZR (dict_score dc) + IZR (pattern_score p))).
Proof. reflexivity. Qed.

(** With the findings fixed, a longer password and a higher entropy never
    lower the score. *)
Theorem score_is_monotone_in_length_and_entropy (n m : nat) (ca : Chars.t)
    (p : Patterns.t) (dc : Dict.t) (e e' : R) :
  (n <= m)%nat -> e <= e' ->
  _calculate_score n ca p dc e <= _calculate_score m ca p dc e'.
Proof.
  intros Hnm Hee. rewrite !calculate_score_sum.
  apply Rle_min_compat_l, Rle_max_compat_l.
  pose proof (length_score_mono n m Hnm) as Hls. apply IZR_le in Hls.
  assert (Hes : Rmin 30 (e / 128 * 30) <= Rmin 30 (e' / 128 * 30))
    by (apply Rle_min_compat_l; lra).
  lra.
Qed.

(** An upper bound on the score before rounding. *)
Lemma raw_score_le (pw : str) (p : Patterns.t) (dc : Dict.t) (e ls es ds : R)
    (dcs : Z) :
  IZR (length_score (length pw)) <= ls ->
  Rmin 30 (e / 128 * 30) <= es ->
  IZR (Chars.diversity_score (_analyze_characters pw)) / 100 * 20 <= ds ->
  (dict_score dc <= dcs)%Z ->
  0 <= ls + es + ds + IZR dcs + 15 ->
  _calculate_score (length pw) (_analyze_characters pw) p dc e <=
  ls + es + ds + IZR dcs + 15.
Proof.
  intros Hls Hes Hds Hdcs Hpos. rewrite calculate_score_sum.
  pose proof (pattern_score_range p) as [_ Hp]. apply IZR_le in Hp, Hdcs.
  eapply Rle_trans; [apply Rmin_r|]. apply Rmax_lub; lra.
Qed.

(** A report whose score before rounding is at most 69 is rated Medium at
    best. *)
Lemma at_most_medium (raw : R) :
  0 <= raw <= 69 ->
  round2 raw <= 69 /\
  (_categorize_strength raw = of_string "Very Weak" \/
   _categorize_strength raw = of_string "Weak" \/
   _categorize_strength raw = of_string "Medium").
Proof.
  intros Hraw. split; [apply (round2_le_int raw 69); exact Hraw|].
  unfold _categorize_strength.
  destruct (Rlt_dec raw 30); [auto|].
  destruct (Rlt_dec raw 50); [auto|].
  destruct (Rlt_dec raw 70); [auto|lra].
Qed.

(** A password of fewer than 8 code points is rated Medium at best,
    whatever its characters: its score is at most 69. *)
Theorem short_password_is_at_most_medium (self : PasswordStrengthChecker)
    (now pw : str) :
  (length pw < 8)%nat ->
  exists r,
    analyze self now pw = Ok r /\
    Report.score r <= 69 /\
    (Report.category r = of_string "Very Weak" \/
     Report.category r = of_string "Weak" \/
     Report.category r = of_string "Medium").
Proof.
  intros Hlen. destruct (decide (pw = [])) as [->|Hpw].
  - eexists. split; [reflexivity|]. cbn. split; [lra|auto].
  - destruct (analyze_nonempty self now pw Hpw) as (p & _ & Ha).
    cbv zeta in Ha. rewrite no_overflow_up_to_134 in Ha by lia.
    eexists. split; [exact Ha|]. cbn [Report.score Report.category].
    match goal with |- context [round2 ?x] => set (raw := x) end.
    apply at_most_medium. split; [apply calculate_score_range|].
    pose proof (character_set_size_pos pw Hpw) as Hlo.
    pose proof (character_set_size_le_195 pw) as Hhi.
    set (s := Chars.character_set_size (_analyze_characters pw)) in *.
    assert (Hlog : log2 (INR s) <= 8).
    { rewrite <- log2_256. apply log2_le_mono.
      - apply (lt_INR 0). lia.
      - rewrite INR_IZR_INZ. apply IZR_le. lia. }
    assert (Hlog0 : 0 <= log2 (INR s)).
    { left. apply log2_pos. apply (lt_INR 1). lia. }
    assert (Hn : 0 <= INR (length pw) <= 7).
    { split; [apply pos_INR|]. rewrite INR_IZR_INZ. apply IZR_le. lia. }
    pose proof (diversity_range pw) as [_ Hd]. apply IZR_le in Hd.
    subst raw.
    eapply Rle_trans;
      [apply (raw_score_le pw p _ _ 0 14 20 20)|lra]; try lra; try lia.
    + replace (length_score (length pw)) with 0%Z; [lra|].
      unfold length_score. destruct (Nat.ltb_spec (length pw) 8); [reflexivity|lia].
    + eapply Rle_trans; [apply Rmin_r|]. nra.
    + apply dict_score_range.
Qed.

End ScoreBounds.

Lemma score_is_monotone_in_length_and_entropy_witness :
  let pw := of_string "Tr0ub4dor&3" in
  let ca := _analyze_characters (U:=latin1) pw in
  let dc := _check_dictionary (U:=latin1) default_checker pw in
  let p := {| Patterns.sequential_digits := [];
              Patterns.sequential_letters := [];
              Patterns.repetitive_chars := [];
              Patterns.keyboard_patterns := [];
              Patterns.common_patterns := [];
              Patterns.date_patterns := [] |} in
  (_calculate_score 11 ca p dc 72 <= _calculate_score 12 ca p dc 79)%R.
Proof.
  apply score_is_monotone_in_length_and_entropy; [lia|lra].
Defined.

Lemma short_password_is_at_most_medium_witness :
  exists r,
    analyze (U:=latin1) default_checker noon (of_string "aB3$k!") = Ok r /\
    (Report.score r <= 69)%R /\
    (Report.category r = of_string "Very Weak" \/
     Report.category r = of_string "Weak" \/
     Report.category r = of_string "Medium").
Proof.
  apply (short_password_is_at_most_medium (U:=latin1)). simpl. lia.
Defined.

(** ** Common passwords and strong passwords *)

Section Verdicts.

Context `{U : Unicode}.

Local Open Scope R_scope.

(** The built-in common passwords have at most 11 characters, all of them
    lower-case letters and digits. *)
Lemma common_password_shape (w : str) :
  w ∈ _load_common_passwords ->
  (1 <= length w <= 11)%nat /\
  forallb (fun c => is_az c || is_09 c) w = true.
Proof.
  unfold _load_common_passwords. intros Hw.
  apply elem_of_list_to_set, list_elem_of_In in Hw.
  match type of Hw with
  | In _ ?l =>
      assert (Hall : forallb (fun w => (1 <=? length w)%nat &&
                                       (length w <=? 11)%nat &&
                                       forallb (fun c => is_az c || is_09 c) w)
                       l = true) by (vm_compute; reflexivity)
  end.
  rewrite forallb_forall in Hall. specialize (Hall w Hw).
  apply andb_prop in Hall as [Hlen Hchars].
  apply andb_prop in Hlen as [Hlo Hhi].
  apply Nat.leb_le in Hlo, Hhi. repeat split; assumption.
Qed.

Lemma letters_and_digits_only (pw : str) :
  forallb (fun c => is_az c || is_09 c) (map ascii_lower pw) = true ->
  forallb is_ascii pw = true ->
  search re_symbol pw = false /\ search re_unicode pw = false.
Proof.
  unfold re_symbol, re_unicode. rewrite !search_set.
  induction pw as [|c pw IH]; [split; reflexivity|].
  cbn [map forallb existsb]. intros Hl Ha.
  apply andb_prop in Hl as [Hc Hl]. apply andb_prop in Ha as [Hca Ha].
  destruct (IH Hl Ha) as [-> ->]. rewrite !Bool.orb_false_r.
  split; [|unfold is_ascii in Hca; rewrite Hca; reflexivity].
  apply Bool.negb_false_iff. revert Hc. unfold ascii_lower.
  destruct (is_AZ c); [intros _; apply Bool.orb_true_iff; left;
                       apply Bool.orb_true_r|].
  rewrite Bool.orb_false_r. intros Hc.
  apply Bool.orb_true_iff in Hc as [-> | ->];
    [reflexivity|apply Bool.orb_true_r].
Qed.

(** A common password, in any mix of upper and lower case, is flagged as
    common and rated Medium at best, with or without a dictionary. *)
Theorem common_password_in_any_case_is_at_most_medium
    (dictionary_file : option string)
    (read_words : string -> option (list str)) (now pw : str) :
  forallb is_ascii pw = true ->
  bool_decide (map ascii_lower pw ∈ _load_common_passwords) = true ->
  exists r,
    analyze (__init__ dictionary_file read_words) now pw = Ok r /\
    Dict.is_common_password <$> Report.dictionary_check r = Some true /\
    Report.score r <= 69 /\
    (Report.category r = of_string "Very Weak" \/
     Report.category r = of_string "Weak" \/
     Report.category r = of_string "Medium").
Proof.
  intros Hascii Hcommon. set (self := __init__ dictionary_file read_words).
  pose proof (bool_decide_eq_true_1 _ Hcommon) as Hin.
  destruct (common_password_shape _ Hin) as [Hlen Hchars].
  rewrite length_map in Hlen.
  assert (Hpw : pw <> []) by (intros ->; simpl in Hlen; lia).
  assert (Hflag : Dict.is_common_password (_check_dictionary self pw) = true).
  { unfold _check_dictionary. rewrite (uni_lower_ascii pw Hascii).
    destruct (nonempty (dictionary_words self));
      [destruct (fold_left _ _ _)|]; exact Hcommon. }
  destruct (analyze_nonempty self now pw Hpw) as (p & _ & Ha).
  cbv zeta in Ha. rewrite no_overflow_up_to_134 in Ha by lia.
  eexists. split; [exact Ha|].
  cbn [Report.score Report.category Report.dictionary_check].
  split; [cbn; rewrite Hflag; reflexivity|].
  match goal with |- context [round2 ?x] => set (raw := x) end.
  apply at_most_medium. split; [apply calculate_score_range|]. subst raw.
  destruct (letters_and_digits_only pw Hchars Hascii) as [Hsym Huni].
  eapply Rle_trans;
    [apply (raw_score_le pw p _ _ 5 30 12 5)|lra]; try lra.
  - apply IZR_le. unfold length_score.
    repeat match goal with
    | |- context [(?a <? ?b)%nat] => destruct (Nat.ltb_spec a b)
    end; lia.
  - apply Rmin_l.
  - unfold _analyze_characters. cbn [Chars.diversity_score].
    rewrite Hsym, Huni, calculate_diversity_is_20_per_class.
    destruct (search re_lower pw), (search re_upper pw),
      (search re_digit pw);
      match goal with
      | |- context [IZR ?z] =>
          let v := eval vm_compute in z in change z with v
      end; lra.
  - apply dict_score_common. exact Hflag.
Qed.

Lemma log2_95_lower : 32 / 5 < log2 95.
Proof.
  pose proof (frac_lt_log2 95 32 5) as H.
  rewrite !INR_IZR_INZ in H. apply H; [lia|lia|]. vm_compute. reflexivity.
Qed.

(** A password of 20 to 134 code points with lower-case and upper-case
    letters, digits and symbols, no dictionary finding and no weak pattern
    is rated Very Strong: its score is 96, or 100 with a non-ASCII
    character. *)
Theorem long_mixed_clean_password_is_very_strong
    (self : PasswordStrengthChecker) (now pw : str) :
  (20 <= length pw <= 134)%nat ->
  Chars.has_lowercase (_analyze_characters pw) = true ->
  Chars.has_uppercase (_analyze_characters pw) = true ->
  Chars.has_digits (_analyze_characters pw) = true ->
  Chars.has_symbols (_analyze_characters pw) = true ->
  dict_score (_check_dictionary self pw) = 20%Z ->
  match _detect_patterns self pw with
  | Ok p => pattern_score p
  | Raise _ => 0%Z
  end = 15%Z ->
  exists r,
    analyze self now pw = Ok r /\
    Report.category r = of_string "Very Strong" /\
    Report.score r =
      if Chars.has_unicode (_analyze_characters pw) then 100 else 96.
Proof.
  intros [Hlo Hhi] Hl Hu Hd Hs Hdict Hpat.
  assert (Hpw : pw <> []) by (intros ->; simpl in Hlo; lia).
  destruct (analyze_nonempty self now pw Hpw) as (p & Hp & Ha).
  cbv zeta in Ha. rewrite no_overflow_up_to_134 in Ha by lia.
  rewrite Hp in Hpat.
  eexists. split; [exact Ha|]. cbn [Report.score Report.category].
  match goal with |- context [round2 ?x] => set (raw := x) end.
  assert (Hraw : raw =
                 if Chars.has_unicode (_analyze_characters pw)
                 then 100 else 96).
  { subst raw. rewrite calculate_score_sum, Hdict, Hpat.
    assert (Hsize : (95 <= Chars.character_set_size
                             (_analyze_characters pw))%nat).
    { rewrite character_set_size_formula, Hl, Hu, Hd, Hs.
      destruct (Chars.has_unicode _); lia. }
    set (s := Chars.character_set_size (_analyze_characters pw)) in *.
    assert (Hlog : 32 / 5 <= log2 (INR s)).
    { left. eapply Rlt_le_trans; [apply log2_95_lower|].
      apply log2_le_mono; [lra|].
      rewrite INR_IZR_INZ. apply IZR_le. lia. }
    assert (Hn : 20 <= INR (length pw)).
    { rewrite INR_IZR_INZ. apply IZR_le. lia. }
    rewrite (Rmin_left 30) by nra.
    replace (length_score (length pw)) with 15%Z.
    2:{ unfold length_score.
        repeat match goal with
        | |- context [(?a <? ?b)%nat] => destruct (Nat.ltb_spec a b)
        end; lia. }
    unfold _analyze_characters in *.
    cbn [Chars.diversity_score Chars.has_lowercase Chars.has_uppercase
         Chars.has_digits Chars.has_symbols Chars.has_unicode] in *.
    rewrite Hl, Hu, Hd, Hs.
    destruct (search re_unicode pw);
      match goal with
      | |- context [IZR (_calculate_diversity ?a ?b ?c ?d ?e)] =>
          let v := eval vm_compute in (_calculate_diversity a b c d e) in
          change (_calculate_diversity a b c d e) with v
      end;
      rewrite Rmax_right by lra; [rewrite Rmin_left by lra|
                                  rewrite Rmin_right by lra]; lra. }
  rewrite Hraw. unfold round2, _categorize_strength.
  destruct (Chars.has_unicode _).
  - rewrite (round_half_even_near _ 10000) by lra.
    repeat (destruct (Rlt_dec _ _); [lra|]). split; [reflexivity|lra].
  - rewrite (round_half_even_near _ 9600) by lra.
    repeat (destruct (Rlt_dec _ _); [lra|]). split; [reflexivity|lra].
Qed.

End Verdicts.

Lemma common_password_in_any_case_is_at_most_medium_witness :
  exists r,
    analyze (U:=latin1) (__init__ None (fun _ => None)) noon
      (of_string "PassWord123") = Ok r /\
    Dict.is_common_password <$> Report.dictionary_check r = Some true /\
    (Report.score r <= 69)%R /\
    (Report.category r = of_string "Very Weak" \/
     Report.category r = of_string "Weak" \/
     Report.category r = of_string "Medium").
Proof.
  apply (common_password_in_any_case_is_at_most_medium (U:=latin1));
    vm_compute; reflexivity.
Defined.

Lemma long_mixed_clean_password_is_very_strong_witness :
  exists r,
    analyze (U:=latin1) default_checker noon
      (of_string "aB3$kL9mN2pQ7rT5vW8xY1") = Ok r /\
    Report.category r = of_string "Very Strong" /\
    Report.score r =
      if Chars.has_unicode
           (_analyze_characters (U:=latin1)
              (of_string "aB3$kL9mN2pQ7rT5vW8xY1"))
      then 100%R else 96%R.
Proof.
  apply (long_mixed_clean_password_is_very_strong (U:=latin1));
    first [simpl; lia | vm_compute; reflexivity].
Defined.

(** ** Recommendations *)

Section Recommendations.

Context `{U : Unicode}.

Lemma advise_nil (cond : bool) (message : str) :
  advise cond message = [] <-> cond = false.
Proof. destruct cond; simpl; split; congruence. Qed.

Lemma advise_in (cond : bool) (message x : str) :
  In x (advise cond message) -> x = message.
Proof. destruct cond; simpl; [intros [->|[]]; reflexivity|intros []]. Qed.

Lemma nonempty_false {A} (l : list A) : nonempty l = false <-> l = [].
Proof. destruct l; simpl; split; congruence. Qed.

(** The list of recommendations is never empty. It is the one message
    "Password meets most security requirements..." exactly when the
    password has 12 characters or more, all four of lower case, upper case,
    digits and symbols, no common-password, dictionary-word or substitution
    finding, no sequential, repetitive or keyboard pattern, and 40 bits of
    entropy; a reversed word, a date and an all-one-class password do not
    count. *)
Theorem recommendations_positive_message (n : nat) (ca : Chars.t)
    (p : Patterns.t) (dc : Dict.t) (e s : R) :
  let recs := _generate_recommendations n ca p dc e s in
  recs <> [] /\
  (recs = [of_string "Password meets most security requirements. Keep it unique and don't reuse it!"] <->
   (12 <= n)%nat /\
   Chars.has_lowercase ca = true /\ Chars.has_uppercase ca = true /\
   Chars.has_digits ca = true /\ Chars.has_symbols ca = true /\
   Dict.is_common_password dc = false /\
   Dict.contains_dictionary_word dc = false /\
   Dict.contains_substituted_word dc = false /\
   Patterns.sequential_digits p = [] /\
   Patterns.sequential_letters p = [] /\
   Patterns.repetitive_chars p = [] /\
   Patterns.keyboard_patterns p = [] /\
   ~ (e < 40)%R).
Proof.
  cbv zeta. unfold _generate_recommendations.
  match goal with
  | |- context [if nonempty ?x then _ else _] => set (l := x)
  end.
  assert (Hnil : l = [] <->
                 (12 <= n)%nat /\
                 Chars.has_lowercase ca = true /\
                 Chars.has_uppercase ca = true /\
                 Chars.has_digits ca = true /\ Chars.has_symbols ca = true /\
                 Dict.is_common_password dc = false /\
                 Dict.contains_dictionary_word dc = false /\
                 Dict.contains_substituted_word dc = false /\
                 Patterns.sequential_digits p = [] /\
                 Patterns.sequential_letters p = [] /\
                 Patterns.repetitive_chars p = [] /\
                 Patterns.keyboard_patterns p = [] /\
                 ~ (e < 40)%R).
  { subst l. rewrite !app_nil, !advise_nil, !Bool.negb_false_iff,
      !nonempty_false, Nat.ltb_ge.
    destruct (Rlt_dec e 40); intuition congruence. }
  assert (Hpos : ~ In (of_string "Password meets most security requirements. Keep it unique and don't reuse it!") l).
  { subst l. intros Hin.
    repeat (apply in_app_or in Hin as [Hin|Hin]);
      apply advise_in in Hin;
      apply (f_equal (fun m => match m with
                               | _ :: _ :: _ :: _ :: _ :: _ :: _ :: _ :: _ ::
                                 c :: _ => c
                               | _ => 0%N
                               end)) in Hin;
      vm_compute in Hin; discriminate. }
  destruct (nonempty l) eqn:Hne.
  - split; [intros ->; discriminate|]. split.
    + intros Heq. exfalso. apply Hpos. rewrite Heq. left. reflexivity.
    + intros Hcond. apply Hnil in Hcond. rewrite Hcond in Hne. discriminate.
  - split; [discriminate|]. apply nonempty_false in Hne.
    split; [intros _; apply Hnil; exact Hne|reflexivity].
Qed.

End Recommendations.

(** ** The dictionary check *)

Section DictionaryFacts.

Context `{U : Unicode}.

Lemma ascii_lower_idempotent (c : codepoint) :
  ascii_lower (ascii_lower c) = ascii_lower c.
Proof.
  unfold ascii_lower. destruct (is_AZ c) eqn:Hc; [|rewrite Hc; reflexivity].
  replace (is_AZ (c + 32)) with false; [reflexivity|].
  symmetry. revert Hc. range_cases.
Qed.

Lemma ascii_lower_is_ascii (s : str) :
  forallb is_ascii s = true -> forallb is_ascii (map ascii_lower s) = true.
Proof.
  induction s as [|c s IH]; [reflexivity|].
  cbn [map forallb]. intros H. apply andb_prop in H as [Hc Hs].
  rewrite (IH Hs), Bool.andb_true_r.
  revert Hc. unfold ascii_lower. range_cases.
Qed.

(** The dictionary check does not see the case of an ASCII password: it
    finds for "PassWord" what it finds for "password". *)
Theorem check_dictionary_ignores_case (self : PasswordStrengthChecker)
    (pw : str) :
  forallb is_ascii pw = true ->
  _check_dictionary self pw = _check_dictionary self (map ascii_lower pw).
Proof.
  intros Hascii. unfold _check_dictionary.
  rewrite (uni_lower_ascii pw Hascii).
  rewrite (uni_lower_ascii _ (ascii_lower_is_ascii pw Hascii)).
  rewrite map_map.
  rewrite (map_ext _ ascii_lower ascii_lower_idempotent).
  reflexivity.
Qed.

Lemma replace_absent (a b : codepoint) (s : str) :
  forallb (fun c => negb (c =? a)%N) s = true -> replace a b s = s.
Proof.
  unfold replace. induction s as [|c s IH]; [reflexivity|].
  cbn [forallb map]. intros H. apply andb_prop in H as [Hc Hs].
  apply Bool.negb_true_iff in Hc. rewrite Hc, (IH Hs). reflexivity.
Qed.

(** The characters the substitution table replaces: @ 3 1 0 $ 7. *)
Definition leet_free (s : str) : bool :=
  forallb (fun c => negb (existsb (N.eqb c) (map snd substitutions))) s.

Lemma substitute_leet_free (s : str) :
  leet_free s = true ->
  fold_left (fun w '(char, sub) => replace sub char w) substitutions s = s.
Proof.
  intros Hfree. unfold substitutions. cbn [fold_left].
  assert (Habs : forall a, In a (map snd substitutions) ->
                           forallb (fun c => negb (c =? a)%N) s = true).
  { intros a Ha. unfold leet_free in Hfree.
    rewrite forallb_forall in *. intros c Hc. specialize (Hfree c Hc).
    apply Bool.negb_true_iff in Hfree. apply Bool.negb_true_iff.
    destruct (N.eqb_spec c a) as [->|]; [|reflexivity].
    rewrite <- Hfree. symmetry. apply existsb_exists.
    exists a. split; [exact Ha|apply N.eqb_refl]. }
  rewrite (replace_absent 64 97 s) by (apply Habs; simpl; auto 10).
  rewrite (replace_absent 51 101 s) by (apply Habs; simpl; auto 10).
  rewrite (replace_absent 49 105 s) by (apply Habs; simpl; auto 10).
  rewrite (replace_absent 48 111 s) by (apply Habs; simpl; auto 10).
  rewrite (replace_absent 36 115 s) by (apply Habs; simpl; auto 10).
  apply replace_absent. apply Habs. simpl. auto 10.
Qed.

(** A common password written without the characters @ 3 1 0 $ 7 is its
    own de-substituted form, so it is reported as a substitution too, and
    the two penalties take its dictionary score to 0. *)
Theorem plain_common_password_counts_as_substituted
    (self : PasswordStrengthChecker) (pw : str) :
  Dict.is_common_password (_check_dictionary self pw) = true ->
  leet_free (uni_lower pw) = true ->
  Dict.contains_substituted_word (_check_dictionary self pw) = true /\
  Dict.substitutions_detected (_check_dictionary self pw) = [uni_lower pw] /\
  dict_score (_check_dictionary self pw) = 0%Z.
Proof.
  intros Hcommon Hfree.
  assert (Hsub : Dict.contains_substituted_word (_check_dictionary self pw)
                 = true /\
                 Dict.substitutions_detected (_check_dictionary self pw)
                 = [uni_lower pw]).
  { unfold _check_dictionary in *.
    rewrite (substitute_leet_free _ Hfree).
    destruct (nonempty (dictionary_words self));
      [destruct (fold_left _ _ _)|];
      cbn [Dict.is_common_password Dict.contains_substituted_word
           Dict.substitutions_detected] in *;
      rewrite Hcommon, Bool.orb_true_r; split; reflexivity. }
  destruct Hsub as [Hsub Hdet]. split; [exact Hsub|]. split; [exact Hdet|].
  unfold dict_score. rewrite Hcommon, Hsub.
  destruct (Dict.contains_dictionary_word _),
    (Dict.contains_reversed_word _); reflexivity.
Qed.

End DictionaryFacts.

Lemma check_dictionary_ignores_case_witness :
  _check_dictionary (U:=latin1) default_checker (of_string "PassWord") =
  _check_dictionary (U:=latin1) default_checker
    (map ascii_lower (of_string "PassWord")).
Proof.
  apply (check_dictionary_ignores_case (U:=latin1)). reflexivity.
Defined.

Lemma plain_common_password_counts_as_substituted_witness :
  Dict.contains_substituted_word
    (_check_dictionary (U:=latin1) default_checker (of_string "Dragon"))
  = true /\
  Dict.substitutions_detected
    (_check_dictionary (U:=latin1) default_checker (of_string "Dragon"))
  = [uni_lower (Unicode:=latin1) (of_string "Dragon")] /\
  dict_score
    (_check_dictionary (U:=latin1) default_checker (of_string "Dragon"))
  = 0%Z.
Proof.
  apply (plain_common_password_counts_as_substituted (U:=latin1));
    vm_compute; reflexivity.
Defined.

(** ** Sequential runs *)

Section SequentialRuns.

Context `{U : Unicode}.

Lemma starts_with_app (w t : str) : starts_with w (w ++ t) = true.
Proof.
  induction w as [|c w IH]; [reflexivity|].
  simpl. rewrite N.eqb_refl, IH. reflexivity.
Qed.

Lemma contains_suffix (w t s : str) :
  starts_with w t = true -> t `suffix_of` s -> contains w s = true.
Proof.
  intros Hw [k ->]. induction k as [|c k IH]; simpl.
  - destruct t; simpl; rewrite Hw; reflexivity.
  - rewrite IH. apply Bool.orb_true_r.
Qed.

Lemma scan_matches_suffix (r : regex) (fuel : nat) :
  forall (bos : bool) (s : str) (m : rmatch_obj),
    In m (scan r fuel bos s) ->
    exists bos' t, t `suffix_of` s /\ match_at r bos' t = Some m.
Proof.
  induction fuel as [|fuel IH]; intros bos s m Hin; [destruct Hin|].
  cbn [scan] in Hin.
  destruct (match_at r bos s) as [m0|] eqn:Hm0.
  - destruct Hin as [->|Hin]; [exists bos, s; split; [done|exact Hm0]|].
    destruct (whole m0) as [|x xs] eqn:Hw.
    + destruct s as [|c s]; [destruct Hin|].
      apply IH in Hin as (b & t & Ht & Hm). exists b, t.
      split; [apply suffix_cons_r; exact Ht|exact Hm].
    + apply IH in Hin as (b & t & Ht & Hm). exists b, t.
      split; [|exact Hm]. etrans; [exact Ht|apply suffix_drop].
  - destruct s as [|c s]; [destruct Hin|].
    apply IH in Hin as (b & t & Ht & Hm). exists b, t.
    split; [apply suffix_cons_r; exact Ht|exact Hm].
Qed.

Lemma match_at_rep_set_prefix (p : codepoint -> bool) (lo : nat)
    (hi : option nat) (bos : bool) (t : str) (m : rmatch_obj) :
  match_at (Rep (Set_ p) lo hi) bos t = Some m ->
  starts_with (whole m) t = true.
Proof.
  unfold match_at. cbn [rmatch rest].
  destruct (rep _ _ _ _ _ _) as [st'|] eqn:Hrep; [|discriminate].
  apply rep_set_inv in Hrep as (w & s' & b & Hs & Hw & Hk).
  simpl in Hs, Hk. inversion Hk; subst. intros Hm. inversion Hm; subst.
  simpl. rewrite length_app.
  replace (length w + length s' - length s')%nat with (length w) by lia.
  rewrite take_app_length. apply starts_with_app.
Qed.

Lemma findall_rep_set_substring (p : codepoint -> bool) (lo : nat)
    (hi : option nat) (s w : str) :
  In w (findall (Rep (Set_ p) lo hi) s) -> contains w s = true.
Proof.
  unfold findall, finditer. intros Hin.
  apply in_map_iff in Hin as (m & <- & Hin).
  apply scan_matches_suffix in Hin as (bos & t & Ht & Hm).
  apply match_at_rep_set_prefix in Hm. exact (contains_suffix _ _ _ Hm Ht).
Qed.

Lemma keep_sequential_inv (d : bool) (seqs : list str) :
  forall l,
    keep_sequential seqs d = Ok l ->
    Forall (fun w => In w seqs /\ _is_sequential w d = Ok true) l.
Proof.
  induction seqs as [|w seqs IH]; intros l Hl.
  - inversion Hl. constructor.
  - cbn [keep_sequential] in Hl.
    destruct (_is_sequential w d) as [b|] eqn:Hb; [|discriminate].
    destruct (keep_sequential seqs d) as [tl|]; [|discriminate].
    cbn [bind] in Hl. inversion Hl; subst. specialize (IH tl eq_refl).
    assert (Htl : Forall (fun w0 => In w0 (w :: seqs) /\
                                    _is_sequential w0 d = Ok true) tl).
    { eapply Forall_impl; [exact IH|]. intros x [Hx Hs]. split; [right|]; auto. }
    destruct b; [constructor; [split; [left; reflexivity|exact Hb]|]|];
      exact Htl.
Qed.

Lemma is_sequential_true (w : str) (d : bool) :
  _is_sequential w d = Ok true ->
  (3 <= length w)%nat /\
  (if d then digit_steps w = Ok true else letter_steps w = true).
Proof.
  unfold _is_sequential.
  destruct (Nat.ltb_spec (length w) 3) as [Hlt|Hge]; [discriminate|].
  destruct d; intros Hseq; split; try lia; congruence.
Qed.

(** An ascending run of letters below "z" ends at most at "z". *)
Lemma letter_steps_bound (w : str) :
  forall a,
    letter_steps (a :: w) = true ->
    forallb is_az (a :: w) = true ->
    (a + N.of_nat (length w) <= 122)%N.
Proof.
  induction w as [|b w IH]; intros a Hsteps Haz.
  - simpl in Haz. revert Haz. range_cases.
  - change (letter_steps (a :: b :: w))
      with (if (ord b - ord a =? 1)%Z then letter_steps (b :: w) else false)
      in Hsteps.
    destruct (Z.eqb_spec (ord b - ord a) 1) as [Hba|]; [|discriminate].
    cbn [forallb] in Haz. apply andb_prop in Haz as [_ Haz].
    specialize (IH b Hsteps Haz). unfold ord in Hba.
    cbn [length]. lia.
Qed.

(** What [_detect_patterns] reports as sequential: every entry of
    sequential_digits is a run of at least 3 decimal digits taken from the
    password, each digit one more than the digit before; every entry of
    sequential_letters is a run of 3 to 26 letters a-z taken from the
    lower-cased password, each letter the next one in the alphabet. *)
Theorem sequential_entries_are_ascending_runs (self : PasswordStrengthChecker)
    (pw : str) :
  match _detect_patterns self pw with
  | Ok p =>
      Forall (fun w =>
                (3 <= length w)%nat /\
                forallb is_decimal w = true /\
                digit_steps w = Ok true /\
                contains w pw = true)
        (Patterns.sequential_digits p) /\
      Forall (fun w =>
                (3 <= length w <= 26)%nat /\
                forallb is_az w = true /\
                letter_steps w = true /\
                contains w (uni_lower pw) = true)
        (Patterns.sequential_letters p)
  | Raise _ => False
  end.
Proof.
  unfold _detect_patterns.
  destruct (keep_sequential (findall re_digits3 pw) true) as [sd|e] eqn:Hsd.
  2:{ destruct (detect_patterns_total self pw) as [p Hp].
      unfold _detect_patterns in Hp. rewrite Hsd in Hp. discriminate. }
  destruct (keep_sequential (findall re_letters3 (uni_lower pw)) false)
    as [sl|e] eqn:Hsl.
  2:{ destruct (keep_sequential_letters_total
                  (findall re_letters3 (uni_lower pw))) as [l Hl].
      congruence. }
  cbn [bind Patterns.sequential_digits Patterns.sequential_letters].
  apply keep_sequential_inv in Hsd, Hsl. split.
  - eapply Forall_impl; [exact Hsd|]. intros w [Hin Hseq].
    apply is_sequential_true in Hseq as [Hlen Hsteps].
    split; [exact Hlen|]. split; [exact (findall_rep_set _ _ _ _ _ Hin)|].
    split; [exact Hsteps|exact (findall_rep_set_substring _ _ _ _ _ Hin)].
  - eapply Forall_impl; [exact Hsl|]. intros w [Hin Hseq].
    apply is_sequential_true in Hseq as [Hlen Hsteps].
    pose proof (findall_rep_set _ _ _ _ _ Hin) as Haz.
    split; [|split; [exact Haz|split;
              [exact Hsteps|exact (findall_rep_set_substring _ _ _ _ _ Hin)]]].
    split; [exact Hlen|].
    destruct w as [|a w]; [simpl in Hlen; lia|].
    pose proof (letter_steps_bound w a Hsteps Haz) as Hb.
    cbn [forallb] in Haz. apply andb_prop in Haz as [Ha _].
    assert (97 <= a)%N by (revert Ha; range_cases).
    cbn [length]. lia.
Qed.

End SequentialRuns.

(** ** What an export does to the file system *)

Section ExportEffects.

Context `{U : Unicode}.
Variable json_dump : Report.t -> list str.
Variable _format_text_report : Report.t -> str.

(** [write_file] in one equation: whether the path opens depends on the
    path and on [unwritable] only, and what is written on the chunks
    only. *)
Lemma write_file_eq (filename : string) (chunks : list str) (fs : FS) :
  write_file filename chunks fs =
  if can_open fs filename
  then ((write_chunks chunks []).1,
        {| files := <[filename := (write_chunks chunks []).2]> (files fs);
           unwritable := unwritable fs |})
  else ((open_w filename fs).1, fs).
Proof.
  unfold write_file. pose proof (open_w_cases filename fs) as Hopen.
  destruct (can_open fs filename).
  - rewrite Hopen. cbn [files unwritable].
    destruct (write_chunks chunks []) as [res written]. cbn [fst snd].
    rewrite insert_insert_eq. reflexivity.
  - destruct Hopen as [[Hopen _]|Hopen]; rewrite Hopen; reflexivity.
Qed.



(** Two file systems that differ at most in the text of one file take an
    export to that file alike. *)
Lemma write_file_over (filename : string) (chunks : list str) (fs fs1 : FS) :
  unwritable fs1 = unwritable fs ->
  files fs1 = files fs \/ (exists text, files fs1 = <[filename := text]> (files fs)) ->
  (write_file filename chunks fs1).1 = (write_file filename chunks fs).1 /\
  ((write_file filename chunks fs).1 = Ok tt ->
   (write_file filename chunks fs1).2 = (write_file filename chunks fs).2).
Proof.
  intros Hun Hfiles. rewrite !write_file_eq.
  assert (Hopen : can_open fs1 filename = can_open fs filename)
    by (unfold can_open; rewrite Hun; reflexivity).
  rewrite Hopen. destruct (can_open fs filename) eqn:Hcan; cbn [fst snd].
  - split; [reflexivity|]. intros _. rewrite Hun. f_equal.
    destruct Hfiles as [-> | [text ->]]; [reflexivity|].
    apply insert_insert_eq.
  - split.
    + unfold open_w. rewrite Hun.
      destruct (has_nul filename); [reflexivity|].
      destruct (_ || _); reflexivity.
    + intros Hok. exfalso.
      pose proof (open_w_cases filename fs) as Ho. rewrite Hcan in Ho.
      destruct Ho as [[Ho _]|Ho]; rewrite Ho in Hok; discriminate Hok.
Qed.

(** What an export leaves: the file system it found, but for the text of
    its file. *)
Lemma export_report_leaves (self : PasswordStrengthChecker)
    (report : Report.t) (filename : string) (format : str) (fs : FS) :
  let fs1 :=
    (export_report json_dump _format_text_report self report filename format
       fs).2 in
  unwritable fs1 = unwritable fs /\
  (files fs1 = files fs \/
   exists text, files fs1 = <[filename := text]> (files fs)).
Proof.
  cbv zeta.
  destruct (export_report_by_format json_dump _format_text_report self report
              filename format fs) as [[_ ->]|[[_ ->]|(_ & _ & ->)]];
    [| |split; [reflexivity|left; reflexivity]];
    rewrite write_file_eq;
    (destruct (can_open fs filename); cbn [snd files unwritable];
     [split; [reflexivity|right; eexists; reflexivity]
     |split; [reflexivity|left; reflexivity]]).
Qed.

(** A later export to the same file replaces the earlier one: it ends as
    it would have without the earlier export, and with the same file
    system when it succeeds. *)
Theorem later_export_replaces_earlier (self : PasswordStrengthChecker)
    (report1 report2 : Report.t) (filename : string) (format1 format2 : str)
    (fs : FS) :
  let fs1 :=
    (export_report json_dump _format_text_report self report1 filename
       format1 fs).2 in
  let alone :=
    export_report json_dump _format_text_report self report2 filename format2
      fs in
  let after :=
    export_report json_dump _format_text_report self report2 filename format2
      fs1 in
  after.1 = alone.1 /\ (alone.1 = Ok tt -> after.2 = alone.2).
Proof.
  cbv zeta.
  destruct (export_report_leaves self report1 filename format1 fs)
    as [Hun Hfiles].
  set (fs1 := (export_report json_dump _format_text_report self report1
                 filename format1 fs).2) in *.
  unfold export_report.
  destruct (str_eqb (uni_lower format2) (of_string "json"));
    [apply write_file_over; assumption|].
  destruct (str_eqb (uni_lower format2) (of_string "txt"));
    [apply write_file_over; assumption|].
  cbn [fst snd]. split; [reflexivity|discriminate].
Qed.

End ExportEffects.

(** * The text report and the callers *)

(** ** [_format_text_report] *)

(** [sep.join(l)] *)
Definition join (sep : str) (l : list str) : str :=
  match l with
  | [] => []
  | x :: tl => x ++ flat_map (fun y => sep ++ y) tl
  end.

Definition ascii_upper (c : codepoint) : codepoint :=
  if is_az c then (c - 32)%N else c.

(** [s.title()] for an ASCII string: a letter is upper-cased after a
    non-letter and lower-cased after a letter. *)
Fixpoint title_from (prev_cased : bool) (s : str) : str :=
  match s with
  | [] => []
  | c :: s' =>
      let cased := is_az c || is_AZ c in
      (if cased then (if prev_cased then ascii_lower c else ascii_upper c)
       else c) :: title_from cased s'
  end.

Definition title (s : str) : str := title_from false s.

(** [patterns.items()], in the order the dict was built. *)
Definition pattern_items (p : Patterns.t) : list (str * list str) :=
  [(of_string "sequential_digits", Patterns.sequential_digits p);
   (of_string "sequential_letters", Patterns.sequential_letters p);
   (of_string "repetitive_chars", Patterns.repetitive_chars p);
   (of_string "keyboard_patterns", Patterns.keyboard_patterns p);
   (of_string "common_patterns", Patterns.common_patterns p);
   (of_string "date_patterns", Patterns.date_patterns p)].

(** The non-ASCII marks of the report: a warning sign with its variation
    selector, a check mark, a bullet. *)
Definition warning_sign : str := [9888; 65039]%N.
Definition check_mark : str := [10003]%N.
Definition bullet : str := [8226]%N.

Definition rule (n : nat) : str := str_mul (of_string "=") n.

Definition bool_text (b : bool) : str :=
  of_string (if b then "True" else "False").

Definition nat_text (n : nat) : str := of_string (pretty n).

Section TextReport.

(** [str(x)] for a float [x], as an f-string prints it. *)
Variable float_text : R -> str.

(** [d.get(key, default)] on a sub-report that may be the empty dict. *)
Definition get {A B} (d : option A) (field : A -> B) (default : B) : B :=
  match d with
  | Some a => field a
  | None => default
  end.

Definition header_lines (report : Report.t) : list str :=
  let ct := Report.cracking_time report in
  [rule 60;
   of_string "PASSWORD STRENGTH ANALYSIS REPORT";
   rule 60;
   [];
   of_string "Analysis Date: " ++ Report.timestamp report;
   of_string "Password Length: " ++ nat_text (Report.length report) ++
     of_string " characters";
   of_string "Entropy: " ++ float_text (Report.entropy_bits report) ++
     of_string " bits";
   of_string "Strength Score: " ++ float_text (Report.score report) ++
     of_string "/100";
   of_string "Category: " ++ Report.category report;
   [];
   of_string "CRACKING TIME ESTIMATES:";
   of_string "  Online Brute-Force: " ++
     get ct Crack.online_brute_force (of_string "N/A");
   of_string "  Offline CPU: " ++ get ct Crack.offline_cpu (of_string "N/A");
   of_string "  Offline GPU: " ++ get ct Crack.offline_gpu (of_string "N/A");
   of_string "  Cloud Cracking: " ++
     get ct Crack.cloud_cracking (of_string "N/A");
   [];
   of_string "CHARACTER ANALYSIS:"].

Definition character_lines (report : Report.t) : list str :=
  let ca := Report.character_analysis report in
  [of_string "  Lowercase: " ++ bool_text (get ca Chars.has_lowercase false)
     ++ of_string " (" ++ nat_text (get ca Chars.lowercase_count 0%nat)
     ++ of_string " chars)";
   of_string "  Uppercase: " ++ bool_text (get ca Chars.has_uppercase false)
     ++ of_string " (" ++ nat_text (get ca Chars.uppercase_count 0%nat)
     ++ of_string " chars)";
   of_string "  Digits: " ++ bool_text (get ca Chars.has_digits false)
     ++ of_string " (" ++ nat_text (get ca Chars.digit_count 0%nat)
     ++ of_string " chars)";
   of_string "  Symbols: " ++ bool_text (get ca Chars.has_symbols false)
     ++ of_string " (" ++ nat_text (get ca Chars.symbol_count 0%nat)
     ++ of_string " chars)";
   of_string "  Character Set Size: " ++
     nat_text (get ca Chars.character_set_size 0%nat)].

Definition pattern_line (item : str * list str) : list str :=
  if nonempty item.2
  then [of_string "  " ++ title (replace 95 32 item.1) ++ of_string ": " ++
        join (of_string ", ") item.2]
  else [].

Definition pattern_lines (report : Report.t) : list str :=
  let items := get (Report.patterns_detected report) pattern_items [] in
  if existsb (fun item => nonempty item.2) items
  then flat_map pattern_line items
  else [of_string "  No weak patterns detected"].

Definition dictionary_lines (report : Report.t) : list str :=
  let dc := Report.dictionary_check report in
  let is_common := get dc Dict.is_common_password false in
  let has_word := get dc Dict.contains_dictionary_word false in
  let substituted := get dc Dict.contains_substituted_word false in
  (if is_common
   then [of_string "  " ++ warning_sign ++
         of_string "  Common password detected!"]
   else []) ++
  (if has_word
   then [of_string "  " ++ warning_sign ++
         of_string "  Dictionary words found: " ++
         join (of_string ", ") (get dc Dict.dictionary_words_found [])]
   else []) ++
  (if substituted
   then [of_string "  " ++ warning_sign ++
         of_string "  Character substitution detected"]
   else []) ++
  (if negb (is_common || has_word || substituted)
   then [of_string "  " ++ check_mark ++
         of_string " No dictionary words detected"]
   else []).

Definition recommendation_lines (report : Report.t) : list str :=
  map (fun rec => of_string "  " ++ bullet ++ of_string " " ++ rec)
    (Report.recommendations report).

(** The list [lines] when [_format_text_report] returns. *)
Definition text_report_lines (report : Report.t) : list str :=
  header_lines report ++
  character_lines report ++
  [[]; of_string "PATTERNS DETECTED:"] ++
  pattern_lines report ++
  [[]; of_string "DICTIONARY CHECK:"] ++
  dictionary_lines report ++
  [[]; of_string "RECOMMENDATIONS:"] ++
  recommendation_lines report ++
  [[]; rule 60].

Definition _format_text_report (report : Report.t) : str :=
  join [10%N] (text_report_lines report).

End TextReport.

(** ** The progress bar of the window ([gui.py]) *)

(** [update_progress_color]: the style it sets on the progress bar. *)
Definition update_progress_color (score : R) : str :=
  if Rlt_dec score 30 then of_string "red.Horizontal.TProgressbar"
  else if Rlt_dec score 50 then of_string "orange.Horizontal.TProgressbar"
  else if Rlt_dec score 70 then of_string "yellow.Horizontal.TProgressbar"
  else if Rlt_dec score 90
       then of_string "lightgreen.Horizontal.TProgressbar"
  else of_string "green.Horizontal.TProgressbar".

(** ** The export step of the command line ([cli.py]) *)


Section CommandLine.

Context `{U : Unicode}.
Variable json_dump : Report.t -> list str.
Variable text_dump : Report.t -> str.


End CommandLine.

(** ** The summary of the demonstration ([demo.py]) *)

(** The loop that counts the reports of each category. *)
Definition count_categories (results : list Report.t) : gmap str nat :=
  fold_left
    (fun categories report =>
       let cat := Report.category report in
       <[cat := (default 0 (categories !! cat) + 1)%nat]> categories)
    results ∅.


(** * Properties of the text report and the callers *)

(** ** The text report *)

(** A line is told from the others by its third character. *)
Definition third (line : str) : codepoint := nth 2 line 0%N.

Lemma line_not_in (x : str) (ls : list str) :
  List.Forall (fun l => third l <> third x) ls -> ~ In x ls.
Proof.
  intros Hall Hin. rewrite List.Forall_forall in Hall.
  exact (Hall x Hin eq_refl).
Qed.

Section TextReportFacts.

Variable float_text : R -> str.

Lemma header_thirds (report : Report.t) (c : codepoint) :
  c = 78%N \/ c = 10003%N ->
  List.Forall (fun l => third l <> c) (header_lines float_text report).
Proof.
  intros Hc. unfold header_lines.
  repeat apply List.Forall_cons; try apply List.Forall_nil;
    cbn; destruct Hc as [-> | ->]; discriminate.
Qed.

Lemma character_thirds (report : Report.t) (c : codepoint) :
  c = 78%N \/ c = 10003%N ->
  List.Forall (fun l => third l <> c) (character_lines report).
Proof.
  intros Hc. unfold character_lines.
  repeat apply List.Forall_cons; try apply List.Forall_nil;
    cbn; destruct Hc as [-> | ->]; discriminate.
Qed.

Lemma recommendation_thirds (report : Report.t) (c : codepoint) :
  c = 78%N \/ c = 10003%N ->
  List.Forall (fun l => third l <> c) (recommendation_lines report).
Proof.
  intros Hc. unfold recommendation_lines.
  apply List.Forall_forall. intros l Hl. apply in_map_iff in Hl.
  destruct Hl as (rec & <- & _).
  cbn; destruct Hc as [-> | ->]; discriminate.
Qed.

Lemma pattern_line_thirds (p : Patterns.t) (c : codepoint) :
  c = 78%N \/ c = 10003%N ->
  List.Forall (fun l => third l <> c)
    (flat_map pattern_line (pattern_items p)).
Proof.
  intros Hc. unfold pattern_items, pattern_line. cbn [flat_map fst snd].
  repeat match goal with
  | |- context [nonempty ?l] => destruct (nonempty l)
  end;
  cbn [app]; repeat apply List.Forall_cons; try apply List.Forall_nil;
    vm_compute; destruct Hc as [-> | ->]; discriminate.
Qed.

Lemma dictionary_thirds (report : Report.t) :
  List.Forall (fun l => third l <> 78%N) (dictionary_lines report).
Proof.
  unfold dictionary_lines. cbv zeta.
  destruct (get _ Dict.is_common_password false),
    (get _ Dict.contains_dictionary_word false),
    (get _ Dict.contains_substituted_word false);
    cbn [app negb orb];
    repeat apply List.Forall_cons; try apply List.Forall_nil;
    cbn; discriminate.
Qed.

Lemma pattern_thirds (report : Report.t) :
  List.Forall (fun l => third l <> 10003%N) (pattern_lines report).
Proof.
  unfold pattern_lines. cbv zeta.
  destruct (existsb _ _).
  - destruct (Report.patterns_detected report) as [p|]; cbn [get].
    + apply pattern_line_thirds. right. reflexivity.
    + apply List.Forall_nil.
  - apply List.Forall_cons; [cbn; discriminate | apply List.Forall_nil].
Qed.

(** The text report says "No dictionary words detected" exactly when the
    report has none of the three flags [is_common_password],
    [contains_dictionary_word] and [contains_substituted_word] (a missing
    flag counts as unset); a reversed dictionary word does not prevent
    the line. *)
Theorem text_report_no_dictionary_words_line (report : Report.t) :
  let dc := Report.dictionary_check report in
  In (of_string "  " ++ check_mark ++
      of_string " No dictionary words detected")
     (text_report_lines float_text report) <->
  get dc Dict.is_common_password false = false /\
  get dc Dict.contains_dictionary_word false = false /\
  get dc Dict.contains_substituted_word false = false.
Proof.
  cbv zeta. unfold text_report_lines.
  set (line := of_string "  " ++ check_mark ++
               of_string " No dictionary words detected").
  assert (Hc : 10003%N = 78%N \/ 10003%N = 10003%N) by (right; reflexivity).
  pose proof (line_not_in line _ (header_thirds report 10003 Hc)) as N1.
  pose proof (line_not_in line _ (character_thirds report 10003 Hc)) as N2.
  pose proof (line_not_in line _ (pattern_thirds report)) as N3.
  pose proof (line_not_in line _ (recommendation_thirds report 10003 Hc)) as N4.
  rewrite !in_app_iff.
  split.
  - intros [H|[H|[H|[H|[H|[H|[H|[H|H]]]]]]]]; try tauto;
      try (cbn in H; unfold line in H;
           repeat destruct H as [H|H]; try discriminate H; tauto).
    unfold dictionary_lines in H. cbv zeta in H.
    destruct (get _ Dict.is_common_password false),
      (get _ Dict.contains_dictionary_word false),
      (get _ Dict.contains_substituted_word false);
      cbn [app negb orb] in H; auto;
      exfalso; unfold line in H; cbn in H;
      repeat destruct H as [H|H]; try discriminate H; tauto.
  - intros (H1 & H2 & H3).
    do 5 right. left. unfold dictionary_lines. cbv zeta.
    rewrite H1, H2, H3. left. reflexivity.
Qed.

(** The text report says "No weak patterns detected" exactly when all six
    lists of findings are empty. Otherwise each non-empty list has its
    line: the key in title case with spaces for underscores, then the
    findings joined by a comma and a space. *)
Theorem text_report_pattern_lines (report : Report.t) :
  (In (of_string "  No weak patterns detected")
      (text_report_lines float_text report) <->
   match Report.patterns_detected report with
   | None => True
   | Some p =>
       Patterns.sequential_digits p = [] /\
       Patterns.sequential_letters p = [] /\
       Patterns.repetitive_chars p = [] /\
       Patterns.keyboard_patterns p = [] /\
       Patterns.common_patterns p = [] /\
       Patterns.date_patterns p = []
   end) /\
  (forall p heading found,
     Report.patterns_detected report = Some p ->
     In (heading, found)
        [(of_string "Sequential Digits", Patterns.sequential_digits p);
         (of_string "Sequential Letters", Patterns.sequential_letters p);
         (of_string "Repetitive Chars", Patterns.repetitive_chars p);
         (of_string "Keyboard Patterns", Patterns.keyboard_patterns p);
         (of_string "Common Patterns", Patterns.common_patterns p);
         (of_string "Date Patterns", Patterns.date_patterns p)] ->
     found <> [] ->
     In (of_string "  " ++ heading ++ of_string ": " ++
         join (of_string ", ") found)
        (text_report_lines float_text report)).
Proof.
  unfold text_report_lines.
  set (line := of_string "  No weak patterns detected").
  assert (Hc : 78%N = 78%N \/ 78%N = 10003%N) by (left; reflexivity).
  pose proof (line_not_in line _ (header_thirds report 78 Hc)) as N1.
  pose proof (line_not_in line _ (character_thirds report 78 Hc)) as N2.
  pose proof (line_not_in line _ (dictionary_thirds report)) as N3.
  pose proof (line_not_in line _ (recommendation_thirds report 78 Hc)) as N4.
  split.
  - rewrite !in_app_iff. split.
    + intros [H|[H|[H|[H|[H|[H|[H|[H|H]]]]]]]]; try tauto;
        try (cbn in H; unfold line in H;
             repeat destruct H as [H|H]; try discriminate H; tauto).
      unfold pattern_lines in H. cbv zeta in H.
      destruct (Report.patterns_detected report) as [p|]; [|exact I].
      cbn [get] in H.
      destruct (existsb _ _) eqn:Hany.
      * exfalso. revert H. apply line_not_in.
        apply pattern_line_thirds. left. reflexivity.
      * unfold pattern_items in Hany. cbn [existsb snd] in Hany.
        rewrite !orb_false_iff, !nonempty_false in Hany. tauto.
    + intros Hp. do 3 right. left. unfold pattern_lines. cbv zeta.
      destruct (Report.patterns_detected report) as [p|]; cbn [get].
      * destruct Hp as (H1 & H2 & H3 & H4 & H5 & H6).
        unfold pattern_items. cbn [existsb snd].
        rewrite H1, H2, H3, H4, H5, H6. left. reflexivity.
      * left. reflexivity.
  - intros p heading found Hp Hin Hne.
    rewrite !in_app_iff. do 3 right. left.
    unfold pattern_lines. cbv zeta. rewrite Hp. cbn [get].
    assert (Hfound : nonempty found = true)
      by (destruct found; [congruence | reflexivity]).
    assert (Hitem : exists key,
              In (key, found) (pattern_items p) /\
              title (replace 95 32 key) = heading).
    { unfold pattern_items. cbn in Hin.
      destruct Hin as [H|[H|[H|[H|[H|[H|[]]]]]]];
        injection H as <- <-;
        [exists (of_string "sequential_digits")
        |exists (of_string "sequential_letters")
        |exists (of_string "repetitive_chars")
        |exists (of_string "keyboard_patterns")
        |exists (of_string "common_patterns")
        |exists (of_string "date_patterns")];
        (split; [cbn; tauto | vm_compute; reflexivity]). }
    destruct Hitem as (key & Hkey & <-).
    replace (existsb _ (pattern_items p)) with true.
    + apply in_flat_map. exists (key, found). split; [exact Hkey|].
      unfold pattern_line. cbn [fst snd]. rewrite Hfound. left. reflexivity.
    + symmetry. apply existsb_exists. exists (key, found). auto.
Qed.

End TextReportFacts.

(** ** A report that cannot be written *)




(** ** The progress bar *)

Section ProgressBar.

Context `{U : Unicode}.

Local Open Scope R_scope.

Definition bar_styles : list (string * string) :=
  [("red.Horizontal.TProgressbar", "Very Weak");
   ("orange.Horizontal.TProgressbar", "Weak");
   ("yellow.Horizontal.TProgressbar", "Medium");
   ("lightgreen.Horizontal.TProgressbar", "Strong");
   ("green.Horizontal.TProgressbar", "Very Strong")]%string.

Lemma progress_color_band (x : R) (style label : string) :
  In (style, label) bar_styles ->
  update_progress_color x = of_string style <->
  _categorize_strength x = of_string label.
Proof.
  unfold bar_styles, update_progress_color, _categorize_strength.
  intros Hin. cbn in Hin.
  destruct Hin as [H|[H|[H|[H|[H|[]]]]]]; injection H as <- <-;
    destruct (Rlt_dec x 30), (Rlt_dec x 50), (Rlt_dec x 70), (Rlt_dec x 90);
    split; intros Heq; try reflexivity;
    vm_compute in Heq; discriminate Heq.
Qed.

(** The window colours the progress bar by the score the report shows,
    with the bounds of the categories. So the colour goes with the
    category (red with Very Weak, orange with Weak, yellow with Medium,
    light green with Strong, green with Very Strong) unless the score
    shown is exactly 30, 50, 70 or 90. *)
Theorem progress_bar_colour_goes_with_category
    (self : PasswordStrengthChecker) (now pw : str) :
  pw <> [] ->
  match analyze self now pw with
  | Ok r =>
      let score := Report.score r in
      score = 30 \/ score = 50 \/ score = 70 \/ score = 90 \/
      forall style label,
        In (style, label) bar_styles ->
        update_progress_color score = of_string style <->
        Report.category r = of_string label
  | Raise e => e = OverflowError
  end.
Proof.
  intros Hpw.
  destruct (analyze_nonempty self now pw Hpw) as (p & _ & Ha).
  cbv zeta in Ha. rewrite Ha.
  destruct (_ <? _)%Z; [|reflexivity].
  cbn [Report.score Report.category].
  match goal with |- context [round2 ?x] => set (raw := x) end.
  assert (Hraw : 0 <= raw <= 100) by apply calculate_score_range.
  destruct (categorize_round2 raw Hraw) as [H|[H|[H|[H|H]]]]; auto.
  do 4 right. intros style label Hin. rewrite <- H.
  apply progress_color_band. exact Hin.
Qed.

End ProgressBar.

Lemma progress_bar_colour_goes_with_category_witness :
  match analyze (U:=latin1) default_checker noon (of_string "Tr0ub4dor&3") with
  | Ok r =>
      let score := Report.score r in
      (score = 30 \/ score = 50 \/ score = 70 \/ score = 90 \/
       forall style label,
         In (style, label) bar_styles ->
         update_progress_color score = of_string style <->
         Report.category r = of_string label)%R
  | Raise e => e = OverflowError
  end.
Proof.
  apply (progress_bar_colour_goes_with_category (U:=latin1)).
  discriminate.
Defined.

(** ** The export step of the command line *)

Section CommandLineFacts.

Context `{U : Unicode}.
Variable json_dump : Report.t -> list str.
Variable text_dump : Report.t -> str.





End CommandLineFacts.

(** ** The summary of the demonstration *)

Definition in_category (c : str) (report : Report.t) : bool :=
  str_eqb (Report.category report) c.

Definition tally (categories : gmap str nat) (report : Report.t)
  : gmap str nat :=
  let cat := Report.category report in
  <[cat := (default 0 (categories !! cat) + 1)%nat]> categories.

Definition total (categories : gmap str nat) : nat :=
  map_fold (fun _ n s => (n + s)%nat) 0%nat categories.

Lemma tally_lookup (categories : gmap str nat) (report : Report.t)
    (c : str) :
  tally categories report !! c =
  if in_category c report
  then Some (default 0 (categories !! c) + 1)%nat
  else categories !! c.
Proof.
  unfold tally, in_category, str_eqb. cbv zeta.
  destruct (bool_decide (Report.category report = c)) eqn:Hc.
  - apply bool_decide_eq_true_1 in Hc. subst c. apply lookup_insert_eq.
  - apply bool_decide_eq_false_1 in Hc. apply lookup_insert_ne. exact Hc.
Qed.

Lemma fold_tally_lookup (results : list Report.t)
    (categories : gmap str nat) (c : str) :
  fold_left tally results categories !! c =
  match length (List.filter (in_category c) results) with
  | O => categories !! c
  | S n => Some (default 0 (categories !! c) + S n)%nat
  end.
Proof.
  revert categories.
  induction results as [|r results IH]; intros categories; [reflexivity|].
  cbn [fold_left List.filter]. rewrite IH, tally_lookup.
  destruct (in_category c r); cbn [length].
  - destruct (length _); simpl; f_equal; unfold Datatypes.id; lia.
  - reflexivity.
Qed.

Lemma total_tally (categories : gmap str nat) (report : Report.t) :
  total (tally categories report) = S (total categories).
Proof.
  unfold total, tally. cbv zeta.
  set (k := Report.category report).
  destruct (categories !! k) as [n|] eqn:Hk; cbn [default].
  - rewrite <- (insert_delete_id categories k n Hk) at 2.
    rewrite <- insert_delete_eq.
    rewrite !map_fold_insert_L;
      [|intros; lia|apply lookup_delete_eq|intros; lia|apply lookup_delete_eq].
    unfold Datatypes.id. lia.
  - rewrite map_fold_insert_L; [reflexivity|intros; lia|exact Hk].
Qed.

Lemma total_fold_tally (results : list Report.t)
    (categories : gmap str nat) :
  total (fold_left tally results categories) =
  (total categories + length results)%nat.
Proof.
  revert categories.
  induction results as [|r results IH]; intros categories; cbn; [lia|].
  rewrite IH, total_tally. lia.
Qed.

(** The tally of the demonstration holds, for each category, the number
    of reports of that category, and has no entry for a category without
    a report; its counts add up to the number of reports. *)
Theorem count_categories_counts (results : list Report.t) :
  (forall c,
     count_categories results !! c =
     match length (List.filter (in_category c) results) with
     | O => None
     | S n => Some (S n)
     end) /\
  total (count_categories results) = length results.
Proof.
  change (count_categories results) with (fold_left tally results ∅).
  split.
  - intros c. rewrite fold_tally_lookup, lookup_empty. reflexivity.
  - rewrite total_fold_tally. unfold total. rewrite map_fold_empty.
    reflexivity.
Qed.
